(** * ds4300-final-project: Wikipedia archive extractor and crawl engine

  A shallow embedding of
  - [data_stores/sqlite/__init__.py]  (index listing parser and index builder),
  - [wiki/reader.py]                   (byte-range extraction, [MWParser], retrieval),
  - [data_stores/neo4j/article_node.py] and [search/__main__.py] (graph store, crawl loop),
  together with the properties of the specification that concern them.

  Python [str] values are modelled as [string], Python [int] as [Z],
  [bytes] as [list byte], a [dict] as a [gmap], a [set] as a [gset]. *)

From Stdlib Require Import ZArith String Ascii Strings.Byte List Lia Bool.
From stdpp Require Import base option list strings gmap sorting.
Import ListNotations.

Open Scope list_scope.

(** ** Python string helpers *)

Module PyStr.

Definition colon : ascii := ":"%char.
Definition dquote : ascii := "034"%char.

(** [len(s)] *)
Definition len (s : string) : nat := String.length s.

(** [s[i:j]] for non-negative [i], [j]: the characters at positions
    [i .. j-1], cut at the end of the string. *)
Definition slice (s : string) (i j : nat) : string :=
  substring i (j - i) s.

(** [s.split(":")]: the maximal colon-free pieces, in order.  The result is
    never empty; an empty input gives one empty piece. *)
Fixpoint split_colon (s : string) : list string :=
  match s with
  | EmptyString => [EmptyString]
  | String c r =>
      if Ascii.eqb c colon then EmptyString :: split_colon r
      else match split_colon r with
           | p :: ps => String c p :: ps
           | [] => [String c EmptyString]
           end
  end.

(** [sep.join(parts)] with the empty separator *)
Definition join (parts : list string) : string :=
  fold_right String.append EmptyString parts.

Fixpoint count_colons (s : string) : nat :=
  match s with
  | EmptyString => 0
  | String c r => (if Ascii.eqb c colon then 1 else 0) + count_colons r
  end.

Definition no_colon (s : string) : Prop := count_colons s = 0.

(** [str(x)] where [x] is [None] or already a [str] *)
Definition str_opt (x : option string) : string :=
  match x with
  | None => "None"
  | Some s => s
  end.

End PyStr.

(** ** [data_stores/sqlite/__init__.py] *)

Module Sqlite.
Import PyStr.

(** [parse_colons(s)]; [None] is the [IndexError] of [portions[1]] when
    [s] holds no colon. *)
Definition parse_colons (s : string) : option (list string) :=
  let portions := split_colon s in
  match portions with
  | p0 :: p1 :: _ => Some [p0; p1; slice s (len p0 + len p1 + 2) (len s)]
  | _ => None
  end.

End Sqlite.

(** ** The index builder of [data_stores/sqlite/__init__.py] *)

Module IndexBuilder.
Import PyStr Sqlite.

(** A cell of a row: the three parsed fields are [str]; the appended
    [last_byte] is a [str] again or the [int] [-1]. *)
Inductive pyval : Type :=
| PyStr (s : string)
| PyInt (z : Z).

#[global] Instance pyval_eq_dec : EqDecision pyval.
Proof. solve_decision. Defined.

(** [list(set([val[0] for val in row_values]))] followed by [.sort()]:
    the distinct first fields in increasing order.  The fields are [str],
    which Python orders lexicographically by character code. *)
Definition byte_values (firsts : list string) : list string :=
  merge_sort String.le (elements (list_to_set firsts : gset string)).

(** One round of [for i, byte in enumerate(byte_values)]. *)
Definition byte_dict_step (bvs : list string)
    (d : gmap string pyval) (ib : nat * string) : gmap string pyval :=
  let '(i, byte) := ib in
  match bvs !! Nat.min (length bvs - 1) (i + 1) with
  | Some nxt =>
      let d1 := <[byte := PyStr nxt]> d in
      if decide (d1 !! byte = Some (PyStr byte))
      then <[byte := PyInt (-1)]> d1
      else d1
  | None => d
  end.

Definition byte_dict (bvs : list string) : gmap string pyval :=
  fold_left (byte_dict_step bvs) (imap pair bvs) ∅.

(** [row.append(byte_dict[row[0]])] *)
Definition append_last_byte (d : gmap string pyval) (row : list string)
    : option (list pyval) :=
  first ← row !! 0;
  last ← d !! first;
  Some (map PyStr row ++ [last]).

(** The body of the script from the parsed listing to the rows handed to
    the data frame with columns [first_byte, page_id, title, last_byte].
    [None] stands for an uncaught [IndexError] or [KeyError]. *)
Definition build_rows (lines : list string) : option (list (list pyval)) :=
  row_values ← mapM parse_colons lines;
  firsts ← mapM (fun val : list string => val !! 0) row_values;
  let d := byte_dict (byte_values firsts) in
  mapM (append_last_byte d) row_values.

End IndexBuilder.


(** ** [wiki/reader.py] *)

Module Reader.
Import PyStr.

(** *** The events of [html.parser.HTMLParser]

    [HTMLParser.goahead] cuts the text it is fed into start tags (name and
    attribute list, an attribute without a value carrying [None]), text
    chunks and end tags, and calls the matching handler for each, in order. *)
Inductive event : Type :=
| StartTag (tag : string) (attrs : list (string * option string))
| Data (data : string)
| EndTag (tag : string).

(** *** [WikipediaArchiveSearcher.MWParser] *)

Record MWParser : Type := mkMWParser {
  true_id : string;               (* [str(self.true_id)] *)
  observed_id : option string;
  lines : list string;
  curr_tag_id : bool;
  final_lines : list string
}.

(** [MWParser.__init__] *)
Definition MWParser_init (id : string) : MWParser :=
  mkMWParser id None [] false [].

(** Truth value of a Python list: empty lists are false. *)
Definition truthy {A} (l : list A) : bool :=
  match l with [] => false | _ :: _ => true end.

Definition set_lines (p : MWParser) (ls : list string) : MWParser :=
  mkMWParser (true_id p) (observed_id p) ls (curr_tag_id p) (final_lines p).

Definition set_curr_tag_id (p : MWParser) (b : bool) : MWParser :=
  mkMWParser (true_id p) (observed_id p) (lines p) b (final_lines p).

Definition set_observed_id (p : MWParser) (o : option string) : MWParser :=
  mkMWParser (true_id p) o (lines p) (curr_tag_id p) (final_lines p).

Definition set_final_lines (p : MWParser) (ls : list string) : MWParser :=
  mkMWParser (true_id p) (observed_id p) (lines p) (curr_tag_id p) ls.

(** [f' {tup[0]}="{tup[1]}"'] *)
Definition render_attr (tup : string * option string) : string :=
  " " +:+ tup.1 +:+ "=" +:+ String dquote (str_opt tup.2 +:+ String dquote EmptyString).

(** The line built by [handle_starttag]. *)
Definition render_starttag (tag : string) (attrs : list (string * option string)) : string :=
  join (["<"; tag] ++ map render_attr attrs ++ [">"]).

(** The line built by [handle_endtag]. *)
Definition render_endtag (tag : string) : string :=
  join ["</"; tag; ">"].

Definition handle_starttag (p : MWParser) (tag : string)
    (attrs : list (string * option string)) : MWParser :=
  if negb (truthy (final_lines p)) then
    let p1 :=
      if decide (tag = "page") then
        set_curr_tag_id (set_lines (set_observed_id p None) []) false
      else if decide (tag = "id") then set_curr_tag_id p true
      else p in
    set_lines p1 (lines p1 ++ [render_starttag tag attrs])
  else p.

Definition handle_data (p : MWParser) (data : string) : MWParser :=
  if negb (truthy (final_lines p)) then
    let p1 := set_lines p (lines p ++ [data]) in
    match curr_tag_id p1, observed_id p1 with
    | true, None => set_observed_id p1 (Some data)
    | _, _ => p1
    end
  else p.

Definition handle_endtag (p : MWParser) (tag : string) : MWParser :=
  if negb (truthy (final_lines p)) then
    let p1 := set_lines p (lines p ++ [render_endtag tag]) in
    let p2 := if decide (tag = "id") then set_curr_tag_id p1 false else p1 in
    if bool_decide (tag = "page") && bool_decide (str_opt (observed_id p2) = true_id p2)
    then set_final_lines p2 (lines p2)
    else p2
  else p.

Definition dispatch (p : MWParser) (e : event) : MWParser :=
  match e with
  | StartTag tag attrs => handle_starttag p tag attrs
  | Data data => handle_data p data
  | EndTag tag => handle_endtag p tag
  end.

(** The scanner has not found its document yet. *)
Definition searching (p : MWParser) : Prop := final_lines p = [].

(** The handlers run over a stream of events. *)
Definition feed_events (p : MWParser) (evs : list event) : MWParser :=
  fold_left dispatch evs p.

(** The text an event contributes to the buffer. *)
Definition render_event (e : event) : string :=
  match e with
  | StartTag tag attrs => render_starttag tag attrs
  | Data data => data
  | EndTag tag => render_endtag tag
  end.

(** *** Library code the searcher calls

    [bz2.BZ2Decompressor().decompress], [bytes.decode] and
    [HTMLParser.goahead] belong to the Python library; [None] is a raised
    exception. *)
Class Library : Type := {
  bz2_decompress : list byte → option (list byte);
  bytes_decode : list byte → option string;
  goahead : string → list event
}.

(** [MWParser.feed]: [self.rawdata = data; self.goahead(0)] *)
Definition feed `{Library} (p : MWParser) (data : string) : MWParser :=
  feed_events p (goahead data).

(** *** Errors and results *)

Inductive error : Type :=
| ArticleNotFoundError (title : string)
| ValueError
| DecompressError
| DecodeError.

Inductive result (A : Type) : Type :=
| Ok (a : A)
| Err (e : error).
Arguments Ok {A} a.
Arguments Err {A} e.

(** *** Binary files *)

Record file : Type := mkFile { contents : list byte; position : nat }.

(** [open(path, "rb")] *)
Definition open_rb (data : list byte) : file := mkFile data 0.

(** [f.read(size)] on a buffered binary file: at most [size] bytes from the
    cursor, everything up to the end of the file when [size] is [-1], and a
    [ValueError] (read length must be non-negative or -1) when [size] is
    below [-1]; the cursor moves past the bytes returned. *)
Definition file_read (f : file) (size : Z) : result (list byte * file) :=
  if (size <? -1)%Z then Err ValueError
  else
    let rest := drop (position f) (contents f) in
    let got := if (size =? -1)%Z then rest else take (Z.to_nat size) rest in
    Ok (got, mkFile (contents f) (position f + length got)).

(** *** [WikipediaArchiveSearcher] *)

(** The bytes [extract_indexed_range] hands to the decompressor, or the
    exception of one of its two [read] calls. *)
Definition bytes_of_interest (archive : list byte) (start_index end_index : Z)
    : result (list byte) :=
  let wiki_file := open_rb archive in
  match file_read wiki_file start_index with
  | Err e => Err e
  | Ok (_, wiki_file) =>
      match file_read wiki_file (end_index - start_index) with
      | Err e => Err e
      | Ok (bytes, _) => Ok bytes
      end
  end.

(** [bz2_decom.decompress(bytes_of_interest).decode()] *)
Definition decompress_decode `{Library} (bytes : list byte) : result string :=
  match bz2_decompress bytes with
  | None => Err DecompressError
  | Some raw =>
      match bytes_decode raw with
      | None => Err DecodeError
      | Some text => Ok text
      end
  end.

Definition extract_indexed_range `{Library} (archive : list byte)
    (start_index end_index : Z) : result string :=
  match bytes_of_interest archive start_index end_index with
  | Err e => Err e
  | Ok bytes => decompress_decode bytes
  end.

(** A row of the [pages] table, in column order. *)
Record row : Type := mkRow {
  start_index : Z;
  page_id : string;
  row_title : string;
  end_index : Z
}.

Record searcher : Type := mkSearcher {
  multistream : list byte;
  index : list row;
  retrieved_pages : gmap string string
}.

(** [SELECT * FROM pages WHERE title == ?] *)
Definition select_by_title (s : searcher) (title : string) : list row :=
  filter (fun r => row_title r = title) (index s).

Definition retrieve_article_xml `{Library} (s : searcher) (title : string)
    : searcher * result string :=
  match select_by_title s title with
  | [] => (s, Err (ArticleNotFoundError title))
  | r :: _ =>
      match extract_indexed_range (multistream s) (start_index r) (end_index r) with
      | Err e => (s, Err e)
      | Ok xml_block =>
          let parser := feed (MWParser_init (page_id r)) xml_block in
          let page := join (final_lines parser) in
          (mkSearcher (multistream s) (index s)
             (<[row_title r := page]> (retrieved_pages s)),
           Ok page)
      end
  end.

End Reader.

(** ** Blocks of tagged documents

    The shape of a decompressed block as the scanner sees it: a run of
    documents, each a [page] element holding its [id] element, the
    identifier text directly inside it, before any other [id] element. *)

Module Block.
Import PyStr Reader.

Record document : Type := mkDocument {
  doc_attrs : list (string * option string);
  doc_pre : list event;           (* between [<page>] and the first [<id>] *)
  doc_id_attrs : list (string * option string);
  doc_id : string;
  doc_post : list event           (* between the first [</id>] and [</page>] *)
}.

Definition doc_events (d : document) : list event :=
  StartTag "page" (doc_attrs d)
    :: doc_pre d
    ++ StartTag "id" (doc_id_attrs d) :: Data (doc_id d) :: EndTag "id"
    :: doc_post d
    ++ [EndTag "page"].

Definition is_page_tag (e : event) : bool :=
  match e with
  | StartTag tag _ | EndTag tag => bool_decide (tag = "page")
  | Data _ => false
  end.

Definition is_page_start (e : event) : bool :=
  match e with
  | StartTag tag _ => bool_decide (tag = "page")
  | _ => false
  end.

Definition is_id_start (e : event) : bool :=
  match e with
  | StartTag tag _ => bool_decide (tag = "id")
  | _ => false
  end.

(** Documents are not nested, and the first [id] element is the one named. *)
Definition well_formed (d : document) : Prop :=
  Forall (fun e => is_page_tag e = false) (doc_pre d ++ doc_post d) ∧
  Forall (fun e => is_id_start e = false) (doc_pre d).

Definition block (docs : list document) : list event :=
  concat (map doc_events docs).

(** The text of a document as the scanner rebuilds it. *)
Definition document_text (d : document) : string :=
  join (map render_event (doc_events d)).

(** A library for worked examples: stored (uncompressed) streams, one
    character per byte, and a fixed event stream for every text. *)
Definition stored_library (evs : list event) : Library :=
  {| bz2_decompress := Some;
     bytes_decode := fun raw => Some (string_of_list_byte raw);
     goahead := fun _ => evs |}.

(** *** The reconstructed text, as the specification words it

    The text of a document with its tags re-serialized, names and attributes
    preserved: a start tag is written as its name followed by its attributes
    in order, each as a blank, the attribute name, an equals sign and the
    value between double quotes, all between angle brackets; text is kept
    as it is; an end tag is its name after a slash, between angle brackets.
    An attribute that carries no value is written by its name alone. *)
Fixpoint serialize_attrs (attrs : list (string * option string)) : string :=
  match attrs with
  | [] => EmptyString
  | (name, Some v) :: rest =>
      " " +:+ name +:+ "=" +:+ String dquote v +:+ String dquote (serialize_attrs rest)
  | (name, None) :: rest => " " +:+ name +:+ serialize_attrs rest
  end.

Definition serialize_event (e : event) : string :=
  match e with
  | StartTag tag attrs => "<" +:+ tag +:+ serialize_attrs attrs +:+ ">"
  | Data text => text
  | EndTag tag => "</" +:+ tag +:+ ">"
  end.

Fixpoint serialize_events (evs : list event) : string :=
  match evs with
  | [] => EmptyString
  | e :: rest => serialize_event e +:+ serialize_events rest
  end.

Definition reconstructed_text (d : document) : string :=
  serialize_events (doc_events d).

(** Every attribute of the tag carries a value, as in XML. *)
Definition attrs_valued (e : event) : Prop :=
  match e with
  | StartTag _ attrs => Forall (fun a : string * option string => is_Some a.2) attrs
  | _ => True
  end.

(** An event that is not the end tag of a page. *)
Definition is_page_end (e : event) : bool :=
  match e with
  | EndTag tag => bool_decide (tag = "page")
  | _ => false
  end.

End Block.

(** ** Worked examples *)

Module Examples.
Import PyStr Reader Block.

Definition doc_a : document :=
  mkDocument []
    [StartTag "title" []; Data "Anarchism"; EndTag "title"] [] "12"
    [StartTag "revision" []; StartTag "id" []; Data "25"; EndTag "id";
     StartTag "redirect" [("title", Some "Anarchy")]; EndTag "redirect";
     EndTag "revision"].

Definition doc_b : document :=
  mkDocument []
    [StartTag "title" []; Data "Autism"; EndTag "title"] [] "25"
    [StartTag "revision" []; StartTag "id" []; Data "12"; EndTag "id";
     EndTag "revision"].

Definition doc_c : document :=
  mkDocument [("lang", Some "en")]
    [StartTag "title" []; Data "Albedo"; EndTag "title"] [] "39" [].

Definition three_docs : list document := [doc_a; doc_b; doc_c].

(** Ten bytes of archive: the letters [a] to [j]. *)
Definition ten_bytes : list byte :=
  list_byte_of_string "abcdefghij".

(** An index whose row for [Zebra] names identifier [7], over an archive
    whose block holds the three documents above. *)
Definition zebra_searcher : searcher :=
  mkSearcher ten_bytes [mkRow 2 "7" "Zebra" 6] ∅.

End Examples.

(** ** [data_stores/neo4j/article_node.py] and [search/__main__.py] *)

Module Crawl.

(** A call returns a value or raises. *)
Inductive outcome (A : Type) : Type :=
| Returned (a : A)
| Raised.
Arguments Returned {A} a.
Arguments Raised {A}.

(** What the script passes for an article: a [WikipediaArticle] object, or,
    in the seed loop, a slice of [SEED_LIST]. *)
Inductive value (Article Seed : Type) : Type :=
| VArticle (a : Article)
| VSeeds (items : list Seed).
Arguments VArticle {Article Seed} a.
Arguments VSeeds {Article Seed} items.

(** The collaborators the script imports and this repository part does not
    hold: [ArticleCache], [WikipediaArticle], the entries of [SEED_LIST] and
    the searcher of [wikipedia.reader].  [World] is everything they keep
    (cache contents, article objects, retrieved pages). *)
Class Collaborators : Type := {
  World : Type;
  Article : Type;
  Seed : Type;
  Properties : Type;
  Properties_eq_dec :: EqDecision Properties;
  (** [cache.retrieve_classification(article)]: [None], [True] or [False] *)
  retrieve_classification : World -> Article -> outcome (option bool);
  (** [wikipedia_searcher.retrieve_article_xml(x)], which also updates the cache *)
  retrieve_article_xml : World -> value Article Seed -> World * outcome unit;
  (** [article.outgoing_links]: [None] or a list of articles *)
  outgoing_links : World -> Article -> option (list Article);
  (** [vars(x).copy()] without the keys [index_key] and [outgoing_links] *)
  properties : World -> value Article Seed -> outcome Properties
}.

Section Engine.
Context `{Collaborators}.

(** A node of the graph store. *)
Record node : Type := mkNode { node_id : nat; node_properties : Properties }.

#[global] Instance node_eq_dec : EqDecision node.
Proof. solve_decision. Defined.

(** The state the script works on.  [cls_article] is the class attribute
    [ArticleNode.article], written by the class method [update_article];
    [child_node] is the script's variable of that name, unbound at first. *)
Record state : Type := mkState {
  world : World;
  nodes : list node;
  edges : list (node * node);
  cls_article : option (value Article Seed);
  search_queue : list node;
  counter : Z;
  child_node : option node
}.

Definition set_world (s : state) (w : World) : state :=
  mkState w (nodes s) (edges s) (cls_article s) (search_queue s) (counter s) (child_node s).

Definition set_graph (s : state) (ns : list node) (es : list (node * node))
    (a : option (value Article Seed)) : state :=
  mkState (world s) ns es a (search_queue s) (counter s) (child_node s).

Definition set_search_queue (s : state) (q : list node) : state :=
  mkState (world s) (nodes s) (edges s) (cls_article s) q (counter s) (child_node s).

Definition set_counter (s : state) (c : Z) : state :=
  mkState (world s) (nodes s) (edges s) (cls_article s) (search_queue s) c (child_node s).

Definition set_child_node (s : state) (n : node) : state :=
  mkState (world s) (nodes s) (edges s) (cls_article s) (search_queue s) (counter s) (Some n).

(** Computations of the script: state passing with exceptions. *)
Definition M (X : Type) : Type := state -> state * outcome X.

Definition ret {X} (x : X) : M X := fun s => (s, Returned x).

Definition bind {X Y} (m : M X) (k : X -> M Y) : M Y :=
  fun s => match m s with
           | (s', Returned x) => k x s'
           | (s', Raised) => (s', Raised)
           end.

Definition raise {X} : M X := fun s => (s, Raised).

Definition get : M state := fun s => (s, Returned s).

Definition modify (f : state -> state) : M unit := fun s => (f s, Returned tt).

(** A collaborator call that only reads the world. *)
Definition ask {X} (f : World -> outcome X) : M X := fun s => (s, f (world s)).

Notation "x <- m ;; k" := (bind m (fun x => k))
  (at level 100, m at next level, right associativity).
Notation "m ;;; k" := (bind m (fun _ => k))
  (at level 100, right associativity).

(** *** [ArticleNode] *)

(** [ArticleNode.clear]: [MATCH (n) DETACH DELETE n] *)
Definition clear : M unit :=
  modify (fun s => set_graph s [] [] (cls_article s)).

(** [cls.nodes.get_or_none(properties=properties)] *)
Definition get_or_none (ns : list node) (props : Properties) : option node :=
  find (fun n => bool_decide (node_properties n = props)) ns.

(** [ArticleNode.add_node] *)
Definition add_node (article : value Article Seed) : M node :=
  props <- ask (fun w => properties w article) ;;
  s <- get ;;
  match get_or_none (nodes s) props with
  | Some n => ret n
  | None =>
      let n := mkNode (length (nodes s)) props in
      modify (fun s => set_graph s (nodes s ++ [n]) (edges s) (Some article)) ;;;
      ret n
  end.

(** [ArticleNode.add_edge]: [source_article.links_to.connect(dest_article)];
    connecting twice keeps one relationship. *)
Definition add_edge (source_article dest_article : node) : M unit :=
  modify (fun s =>
    if decide ((source_article, dest_article) ∈ edges s) then s
    else set_graph s (nodes s) (edges s ++ [(source_article, dest_article)])
           (cls_article s)).

(** [node.article.outgoing_links]: the attribute [article] is found on the
    class. *)
Definition node_links (current_article_node : node) : M (option (list Article)) :=
  s <- get ;;
  match cls_article s with
  | Some (VArticle a) => ret (outgoing_links (world s) a)
  | _ => raise
  end.

(** *** The script *)

(** Truth value of [None], [True], [False]. *)
Definition is_true (v : option bool) : bool :=
  match v with Some true => true | _ => false end.

(** The [try] block of the link loop with its [except]:
    [retrieve_article_xml(linked_article)] then
    [cache.retrieve_classification(linked_article)], and [False] when
    either raises. *)
Definition fresh_classification (w : World) (linked_article : Article)
    : World * option bool :=
  match retrieve_article_xml w (VArticle linked_article) with
  | (w', Raised) => (w', Some false)
  | (w', Returned _) =>
      match retrieve_classification w' linked_article with
      | Raised => (w', Some false)
      | Returned v => (w', v)
      end
  end.

(** The body of [for linked_article in links]. *)
Definition process_link (current_article_node : node) (linked_article : Article)
    : M unit :=
  stored_classification <- ask (fun w => retrieve_classification w linked_article) ;;
  link_is_musical_artist <-
    match stored_classification with
    | Some v => ret (Some v)
    | None =>
        s <- get ;;
        let '(w', v) := fresh_classification (world s) linked_article in
        modify (fun s => set_counter (set_world s w')
                           (counter s + (if is_true v then 1 else 0))) ;;;
        ret v
    end ;;
  if is_true link_is_musical_artist then
    match stored_classification with
    | None =>
        n <- add_node (VArticle linked_article) ;;
        modify (fun s => set_child_node s n)
    | Some _ => ret tt
    end ;;;
    s <- get ;;
    match child_node s with
    | None => raise                     (* [NameError]: [child_node] unbound *)
    | Some child =>
        add_edge current_article_node child ;;;
        modify (fun s => set_search_queue s (search_queue s ++ [child]))
    end
  else ret tt.

Fixpoint process_links (current_article_node : node) (links : list Article)
    : M unit :=
  match links with
  | [] => ret tt
  | linked_article :: rest =>
      process_link current_article_node linked_article ;;;
      process_links current_article_node rest
  end.

(** How a run of the [while] loop ends within a bound on its rounds. *)
Inductive loop_end : Type :=
| Finished
| RoundsLeft.

(** [while not len(search_queue) == 0 and continue_search], at most [rounds]
    rounds of it. *)
Fixpoint crawl_loop (rounds : nat) (continue_search : bool) : M loop_end :=
  s <- get ;;
  match search_queue s with
  | [] => ret Finished
  | current_article_node :: queue' =>
      if negb continue_search then ret Finished
      else match rounds with
           | O => ret RoundsLeft
           | S rounds' =>
               modify (fun s => set_search_queue s queue') ;;;
               links <- node_links current_article_node ;;
               match links with
               | None => crawl_loop rounds' continue_search
               | Some links =>
                   process_links current_article_node links ;;;
                   s <- get ;;
                   crawl_loop rounds' (counter s <? 150)%Z
               end
           end
  end.

(** [[SEED_LIST[0:2]]]: a list with one element, the slice. *)
Definition seed_items (SEED_LIST : list Seed) : list (value Article Seed) :=
  [VSeeds (take 2 SEED_LIST)].

(** The body of [for artist in [SEED_LIST[0:2]]]. *)
Definition seed_one (artist : value Article Seed) : M unit :=
  (fun s => let '(w', r) := retrieve_article_xml (world s) artist in
            (set_world s w', r)) ;;;
  n <- add_node artist ;;
  modify (fun s => set_search_queue s (search_queue s ++ [n])).

Fixpoint seed_loop (items : list (value Article Seed)) : M unit :=
  match items with
  | [] => ret tt
  | artist :: rest => seed_one artist ;;; seed_loop rest
  end.

(** The script up to the [while] loop. *)
Definition seeding (SEED_LIST : list Seed) : M unit :=
  clear ;;;
  modify (fun s => set_search_queue s []) ;;;
  seed_loop (seed_items SEED_LIST) ;;;
  modify (fun s => set_counter s (Z.of_nat (length (search_queue s)))).

(** The whole script, the [while] loop bounded. *)
Definition main (SEED_LIST : list Seed) (rounds : nat) : M loop_end :=
  seeding SEED_LIST ;;;
  crawl_loop rounds true.

End Engine.

End Crawl.

(** ** A small world for worked examples of the crawl *)

Module CrawlExamples.
Import Crawl.

Definition musicians : list string := ["Adele"; "Beck"].

(** Titles stand for articles; the world is the content of the cache.
    Retrieval classifies the article and stores the verdict; the article
    [Broken] cannot be retrieved, and neither can a list of seeds. *)
#[global] Instance toy : Collaborators := {|
  World := gmap string bool;
  Article := string;
  Seed := string;
  Properties := string;
  retrieve_classification := fun w a => Returned (w !! a);
  retrieve_article_xml := fun w x =>
    match x with
    | VArticle a =>
        if decide (a = "Broken") then (w, Raised)
        else (<[a := bool_decide (a ∈ musicians)]> w, Returned tt)
    | VSeeds _ => (w, Raised)
    end;
  outgoing_links := fun w a =>
    if decide (a = "Nina") then Some ["Adele"; "Beck"] else Some [];
  properties := fun w x =>
    match x with
    | VArticle a => Returned a
    | VSeeds _ => Raised
    end
|}.

Definition nina : node := mkNode 0 "Nina".
Definition adele : node := mkNode 1 "Adele".

(** [Nina] has been dequeued; [Beck] has a cached positive verdict from
    earlier work and [Adele] has none. *)
Definition nina_dequeued : state :=
  mkState ({["Beck" := true]} : gmap string bool) [nina] []
    (Some (VArticle "Nina")) [] 1 None.

End CrawlExamples.

(** ** Further worked examples *)

Module MoreExamples.
Import PyStr Reader Block Examples.

(** An index with two rows for the title [Autism]. *)
Definition autism_searcher : searcher :=
  mkSearcher ten_bytes
    [mkRow 0 "39" "Albedo" 4; mkRow 2 "25" "Autism" 6; mkRow 1 "12" "Autism" 3]
    ∅.

End MoreExamples.

(** ** An invariant of the graph store *)

Module CrawlInvariants.
Import Crawl.

(** No two nodes of the store carry the same properties. *)
Definition distinct_properties `{Collaborators} (s : state) : Prop :=
  NoDup (node_properties <$> nodes s).

End CrawlInvariants.

(** ** Further worked examples of the crawl *)

Module MoreCrawlExamples.
Import Crawl CrawlExamples.

(** [Paris] has a cached negative verdict. *)
Definition paris_cached : state :=
  mkState ({["Paris" := false]} : gmap string bool) [nina] []
    (Some (VArticle "Nina")) [nina] 1 None.

(** The state after [Adele] was registered from [nina_dequeued]. *)
Definition adele_added : state :=
  mkState ({["Beck" := true]} : gmap string bool) [nina; adele] []
    (Some (VArticle "Adele")) [] 1 None.

(** One acceptance short of the quota, [Nina] queued twice. *)
Definition near_quota : state :=
  mkState ({["Beck" := true]} : gmap string bool) [nina] []
    (Some (VArticle "Nina")) [nina; nina] 149 None.

(** [near_quota] after one round of the loop. *)
Definition quota_reached : state :=
  mkState ({["Beck" := true; "Adele" := true]} : gmap string bool)
    [nina; adele] [(nina, adele)] (Some (VArticle "Adele"))
    [nina; adele; adele] 150 (Some adele).

End MoreCrawlExamples.

(** ** Lemmas on the string helpers *)

Section PyStrFacts.
Import PyStr.

Lemma split_colon_nonempty s : split_colon s <> [].
Proof.
  destruct s as [|c r]; simpl; [discriminate|].
  destruct (Ascii.eqb c colon); [discriminate|].
  destruct (split_colon r); discriminate.
Qed.

Lemma substring_all s : substring 0 (String.length s) s = s.
Proof. induction s as [|c r IH]; simpl; [reflexivity | now rewrite IH]. Qed.

Lemma substring_skip_app a b :
  substring (String.length a) (String.length b) (a +:+ b) = b.
Proof.
  induction a as [|c r IH]; simpl; [apply substring_all | exact IH].
Qed.

Lemma substring_skip_app_wide a b n :
  String.length b <= n ->
  substring (String.length a) n (a +:+ b) = b.
Proof.
  revert n. induction a as [|c r IH]; simpl; intros n Hn.
  - revert n Hn. induction b as [|c r IH]; intros [|n] Hn; simpl in *;
      try reflexivity; try lia.
    f_equal. apply IH. lia.
  - now apply IH.
Qed.

Lemma app_cons c a b : String c a +:+ b = String c (a +:+ b).
Proof. reflexivity. Qed.

Lemma app_nil_l b : EmptyString +:+ b = b.
Proof. reflexivity. Qed.

Lemma string_app_assoc a b c : (a +:+ b) +:+ c = a +:+ (b +:+ c).
Proof.
  induction a as [|x a IH]; [reflexivity|].
  rewrite !app_cons. now rewrite IH.
Qed.

Lemma length_app_string a b :
  String.length (a +:+ b) = String.length a + String.length b.
Proof.
  induction a as [|x a IH]; [reflexivity|].
  rewrite app_cons. cbn [String.length]. now rewrite IH.
Qed.

(** The first piece of a split holds no colon and, when a colon follows,
    the input is that piece, a colon and the rest re-split. *)
Lemma split_colon_head s :
  match split_colon s with
  | [] => False
  | [p] => s = p /\ count_colons s = 0
  | p :: ps =>
      no_colon p /\
      exists rest, s = p +:+ String colon rest /\ split_colon rest = ps
                   /\ count_colons s = S (count_colons rest)
  end.
Proof.
  induction s as [|c r IH]; simpl.
  - split; reflexivity.
  - destruct (Ascii.eqb c colon) eqn:E.
    + apply Ascii.eqb_eq in E. subst c.
      pose proof (split_colon_nonempty r) as Hne.
      destruct (split_colon r) as [|q qs] eqn:Er; [congruence|].
      split; [reflexivity|]. exists r. simpl. auto.
    + destruct (split_colon r) as [|p [|q qs]] eqn:Er; [contradiction| |].
      * destruct IH as [-> Hc]. split; [reflexivity | exact Hc].
      * destruct IH as [Hp (rest & -> & Hs & Hc)].
        split; [unfold no_colon in *; cbn [count_colons]; rewrite E; exact Hp|].
        exists rest. repeat split; [exact Hs | exact Hc].
Qed.

End PyStrFacts.

(** ** Properties of [parse_colons] *)

Section ParseColons.
Import PyStr Sqlite.

(** C10. For a string with at least two colons, [parse_colons] returns three
    strings [a; b; c]; [a] and [b] hold no colon, and [a + ":" + b + ":" + c]
    is the input again: splitting at the first two colons and rejoining is
    the identity. *)
Theorem parse_colons_roundtrip (s : string) :
  2 <= count_colons s ->
  exists a b c,
    parse_colons s = Some [a; b; c] /\
    no_colon a /\ no_colon b /\
    a +:+ String colon (b +:+ String colon c) = s.
Proof.
  intros H2. unfold parse_colons.
  pose proof (split_colon_head s) as H0.
  destruct (split_colon s) as [|p0 [|p1 ps]] eqn:Es; [contradiction| |].
  - destruct H0 as [_ H0]. lia.
  - destruct H0 as [Hp0 (r1 & Hs & Hr1 & Hc1)].
    pose proof (split_colon_head r1) as H1. rewrite Hr1 in H1.
    destruct ps as [|p2 ps].
    + destruct H1 as [_ H1]. lia.
    + destruct H1 as [Hp1 (r2 & Hs1 & _ & _)].
      exists p0, p1, r2. repeat split; try assumption.
      * do 4 f_equal. subst s r1. unfold slice, len.
        replace (String.length p0 + String.length p1 + 2)
          with (String.length (p0 +:+ String colon (p1 +:+ String colon EmptyString))).
        2:{ rewrite length_app_string. simpl. rewrite length_app_string. simpl. lia. }
        replace (p0 +:+ String colon (p1 +:+ String colon r2))
          with ((p0 +:+ String colon (p1 +:+ String colon EmptyString)) +:+ r2).
        2:{ rewrite string_app_assoc, app_cons, string_app_assoc, app_cons.
            reflexivity. }
        apply substring_skip_app_wide.
        rewrite !length_app_string. simpl. rewrite !length_app_string. simpl. lia.
      * subst s r1. reflexivity.
Qed.

Lemma parse_colons_roundtrip_witness :
  2 <= count_colons "616:10:AccessibleComputing: a:b" /\
  exists a b c,
    parse_colons "616:10:AccessibleComputing: a:b" = Some [a; b; c] /\
    no_colon a /\ no_colon b /\
    a +:+ String colon (b +:+ String colon c) = "616:10:AccessibleComputing: a:b".
Proof.
  split; [vm_compute; lia|].
  apply (parse_colons_roundtrip "616:10:AccessibleComputing: a:b").
  vm_compute; lia.
Defined.

End ParseColons.


(** ** The scanner [MWParser] *)

Section Scanner.
Import PyStr Reader Block.

Lemma dispatch_done p e : final_lines p <> [] -> dispatch p e = p.
Proof.
  intros Hd. destruct (final_lines p) as [|l ls] eqn:E; [congruence|].
  destruct e; simpl; unfold handle_starttag, handle_data, handle_endtag;
    rewrite E; reflexivity.
Qed.

Lemma feed_events_done p evs : final_lines p <> [] -> feed_events p evs = p.
Proof.
  intros Hd. induction evs as [|e evs IH]; [reflexivity|].
  unfold feed_events in *. simpl. rewrite dispatch_done by exact Hd. exact IH.
Qed.

Lemma feed_events_app p evs1 evs2 :
  feed_events p (evs1 ++ evs2) = feed_events (feed_events p evs1) evs2.
Proof. unfold feed_events. apply fold_left_app. Qed.

Lemma feed_events_cons p e evs :
  feed_events p (e :: evs) = feed_events (dispatch p e) evs.
Proof. reflexivity. Qed.

Lemma dispatch_true_id p e : true_id (dispatch p e) = true_id p.
Proof.
  destruct e; simpl; unfold handle_starttag, handle_data, handle_endtag;
    repeat (case_match; simpl; try reflexivity).
Qed.

(** One event that is no page tag, read while searching: the scanner keeps
    searching, the buffer grows by the rendered event, and a recorded
    identifier stays. *)
Lemma dispatch_inside p e :
  searching p -> is_page_tag e = false ->
  searching (dispatch p e) /\
  lines (dispatch p e) = lines p ++ [render_event e] /\
  (forall x, observed_id p = Some x -> observed_id (dispatch p e) = Some x).
Proof.
  unfold searching. intros Hs Hp.
  destruct e as [tag attrs|data|tag]; simpl in *;
    unfold handle_starttag, handle_data, handle_endtag; rewrite Hs; simpl.
  - apply bool_decide_eq_false in Hp.
    destruct (decide (tag = "page")); [contradiction|].
    destruct (decide (tag = "id")); simpl; auto.
  - destruct (curr_tag_id p) eqn:Ec, (observed_id p) eqn:Eo; simpl;
      repeat split; auto; intros x Hx; congruence.
  - apply bool_decide_eq_false in Hp.
    rewrite (bool_decide_eq_false_2 _ Hp). simpl.
    destruct (decide (tag = "id")); simpl; auto.
Qed.

Lemma feed_events_inside evs : forall p,
  searching p -> Forall (fun e => is_page_tag e = false) evs ->
  searching (feed_events p evs) /\
  lines (feed_events p evs) = lines p ++ map render_event evs /\
  (forall x, observed_id p = Some x -> observed_id (feed_events p evs) = Some x).
Proof.
  induction evs as [|e evs IH]; intros p Hs Hall.
  - simpl. rewrite app_nil_r. auto.
  - inversion Hall as [|? ? He Hrest]; subst.
    destruct (dispatch_inside p e Hs He) as (Hs1 & Hl1 & Ho1).
    destruct (IH (dispatch p e) Hs1 Hrest) as (Hs2 & Hl2 & Ho2).
    rewrite feed_events_cons. repeat split; auto.
    rewrite Hl2, Hl1, <- app_assoc. reflexivity.
Qed.

(** Before the first [id] element of a document nothing is recorded. *)
Lemma feed_events_before_id evs : forall p,
  searching p ->
  Forall (fun e => is_page_tag e = false) evs ->
  Forall (fun e => is_id_start e = false) evs ->
  curr_tag_id p = false ->
  curr_tag_id (feed_events p evs) = false /\
  observed_id (feed_events p evs) = observed_id p.
Proof.
  induction evs as [|e evs IH]; intros p Hs Hpg Hid Hc; [auto|].
  inversion Hpg as [|? ? He Hrest]; subst.
  inversion Hid as [|? ? Hi Hrest']; subst.
  destruct (dispatch_inside p e Hs He) as (Hs1 & _ & _).
  rewrite feed_events_cons.
  assert (curr_tag_id (dispatch p e) = false /\
          observed_id (dispatch p e) = observed_id p) as [Hc1 Ho1].
  { unfold searching in Hs.
    destruct e as [tag attrs|data|tag]; simpl in *;
      unfold handle_starttag, handle_data, handle_endtag; rewrite Hs; simpl.
    - apply bool_decide_eq_false in He, Hi.
      destruct (decide (tag = "page")); [contradiction|].
      destruct (decide (tag = "id")); [contradiction|]. simpl. auto.
    - rewrite Hc. simpl. auto.
    - apply bool_decide_eq_false in He.
      rewrite (bool_decide_eq_false_2 _ He). simpl.
      destruct (decide (tag = "id")); simpl; auto. }
  destruct (IH (dispatch p e) Hs1 Hrest Hrest' Hc1) as [Hc2 Ho2].
  split; [exact Hc2 | congruence].
Qed.

Lemma feed_events_true_id evs : forall p, true_id (feed_events p evs) = true_id p.
Proof.
  induction evs as [|e evs IH]; intros p; [reflexivity|].
  rewrite feed_events_cons, IH. apply dispatch_true_id.
Qed.

(** A whole document read while searching: the buffer is restarted at its
    [<page>] tag, so what is snapshotted at [</page>] is the document alone,
    and it is snapshotted exactly when the document's identifier is the
    target. *)
Lemma scan_document p d :
  searching p -> well_formed d ->
  final_lines (feed_events p (doc_events d)) =
    if decide (doc_id d = true_id p) then map render_event (doc_events d) else [].
Proof.
  intros Hs [Hpg Hid]. apply Forall_app in Hpg as [Hpre Hpost].
  unfold doc_events. rewrite feed_events_cons.
  set (p1 := dispatch p (StartTag "page" (doc_attrs d))).
  assert (searching p1 /\ lines p1 = [render_starttag "page" (doc_attrs d)] /\
          observed_id p1 = None /\ curr_tag_id p1 = false /\ true_id p1 = true_id p)
    as (Hs1 & Hl1 & Ho1 & Hc1 & Ht1).
  { unfold p1, searching in *. simpl. unfold handle_starttag. rewrite Hs. simpl. auto. }
  clearbody p1. rewrite feed_events_app.
  destruct (feed_events_inside (doc_pre d) p1 Hs1 Hpre) as (Hs2 & Hl2 & _).
  destruct (feed_events_before_id (doc_pre d) p1 Hs1 Hpre Hid Hc1) as (Hc2 & Ho2).
  pose proof (feed_events_true_id (doc_pre d) p1) as Ht2.
  set (p2 := feed_events p1 (doc_pre d)) in *. clearbody p2.
  rewrite Ho1 in Ho2. rewrite Hl1 in Hl2. rewrite Ht1 in Ht2.
  rewrite !feed_events_cons.
  set (p3 := dispatch (dispatch (dispatch p2 (StartTag "id" (doc_id_attrs d)))
                         (Data (doc_id d))) (EndTag "id")).
  assert (searching p3 /\
          lines p3 = lines p2 ++ map render_event
            [StartTag "id" (doc_id_attrs d); Data (doc_id d); EndTag "id"] /\
          observed_id p3 = Some (doc_id d) /\ true_id p3 = true_id p)
    as (Hs3 & Hl3 & Ho3 & Ht3).
  { unfold p3, searching in *. destruct p2 as [t o l c f]. simpl in *. subst.
    unfold handle_endtag, handle_data, handle_starttag. simpl.
    rewrite <- !app_assoc. simpl. auto. }
  clearbody p3. rewrite feed_events_app.
  destruct (feed_events_inside (doc_post d) p3 Hs3 Hpost) as (Hs4 & Hl4 & Ho4).
  pose proof (feed_events_true_id (doc_post d) p3) as Ht4.
  specialize (Ho4 _ Ho3).
  set (p4 := feed_events p3 (doc_post d)) in *. clearbody p4.
  rewrite Hl3, Hl2 in Hl4. rewrite Ht3 in Ht4.
  unfold searching in Hs4. destruct p4 as [t o l c f]. simpl in *. subst.
  unfold handle_endtag. simpl.
  rewrite map_app. simpl. rewrite map_app. simpl.
  destruct (decide (doc_id d = true_id p)) as [E|E].
  - rewrite (bool_decide_eq_true_2 _ E). simpl.
    rewrite <- !app_assoc. reflexivity.
  - rewrite (bool_decide_eq_false_2 _ E). reflexivity.
Qed.

Lemma scan_document_true_id p d :
  true_id (feed_events p (doc_events d)) = true_id p.
Proof. apply feed_events_true_id. Qed.

Lemma block_cons d docs : block (d :: docs) = doc_events d ++ block docs.
Proof. reflexivity. Qed.

(** A run of documents none of which carries the target identifier leaves
    the scanner searching. *)
Lemma scan_block_no_match docs : forall p,
  searching p -> Forall well_formed docs ->
  Forall (fun d => doc_id d <> true_id p) docs ->
  searching (feed_events p (block docs)).
Proof.
  induction docs as [|d docs IH]; intros p Hs Hwf Hne; [exact Hs|].
  inversion Hwf as [|? ? Hd Hwf']; subst.
  inversion Hne as [|? ? Hn Hne']; subst.
  rewrite block_cons, feed_events_app.
  assert (searching (feed_events p (doc_events d))) as Hs'.
  { unfold searching. rewrite scan_document by assumption.
    destruct (decide (doc_id d = true_id p)); [contradiction | reflexivity]. }
  apply IH; [exact Hs' | exact Hwf' |].
  eapply Forall_impl; [exact Hne'|]. intros x Hx. cbv beta.
  rewrite feed_events_true_id. exact Hx.
Qed.

(** The scan of a block whose [k]-th document carries the target identifier,
    the identifiers being pairwise distinct. *)
Lemma scan_block_select docs : forall k d p,
  searching p -> Forall well_formed docs -> NoDup (map doc_id docs) ->
  docs !! k = Some d -> true_id p = doc_id d ->
  final_lines (feed_events p (block docs)) = map render_event (doc_events d).
Proof.
  induction docs as [|d0 docs IH]; intros k d p Hs Hwf Hnd Hk Ht; [discriminate|].
  inversion Hwf as [|? ? Hd Hwf']; subst.
  simpl in Hnd. apply NoDup_cons in Hnd as [Hnotin Hnd].
  rewrite block_cons, feed_events_app.
  destruct k as [|k]; simpl in Hk.
  - injection Hk as ->.
    rewrite feed_events_done.
    + rewrite scan_document by assumption.
      destruct (decide (doc_id d = true_id p)); [reflexivity | congruence].
    + rewrite scan_document by assumption.
      destruct (decide (doc_id d = true_id p)); [|congruence].
      unfold doc_events. simpl. discriminate.
  - assert (searching (feed_events p (doc_events d0))) as Hs'.
    { unfold searching. rewrite scan_document by assumption.
      destruct (decide (doc_id d0 = true_id p)) as [E|E]; [|reflexivity].
      exfalso. apply Hnotin. rewrite E, Ht.
      apply list_elem_of_fmap. exists d. split; [reflexivity|].
      eapply list_elem_of_lookup_2; eauto. }
    apply (IH k); [exact Hs' | exact Hwf' | exact Hnd | exact Hk |].
    rewrite feed_events_true_id. exact Ht.
Qed.

End Scanner.

(** ** Claims on the scanner *)

Section ScannerClaims.
Import PyStr Reader Block.

Lemma dispatch_keeps_observed p e x :
  observed_id p = Some x -> is_page_start e = false ->
  observed_id (dispatch p e) = Some x.
Proof.
  intros Ho He.
  destruct e as [tag attrs|data|tag]; simpl in *;
    unfold handle_starttag, handle_data, handle_endtag;
    destruct (truthy (final_lines p)); simpl; try exact Ho.
  - apply bool_decide_eq_false in He.
    destruct (decide (tag = "page")); [contradiction|].
    destruct (decide (tag = "id")); simpl; exact Ho.
  - rewrite Ho. destruct (curr_tag_id p); simpl; exact Ho.
  - destruct (decide (tag = "id")); simpl;
      destruct (bool_decide (tag = "page") && _); simpl; exact Ho.
Qed.

Lemma feed_events_keeps_observed evs : forall p x,
  observed_id p = Some x -> Forall (fun e => is_page_start e = false) evs ->
  observed_id (feed_events p evs) = Some x.
Proof.
  induction evs as [|e evs IH]; intros p x Ho Hall; [exact Ho|].
  inversion Hall as [|? ? He Hrest]; subst.
  rewrite feed_events_cons. apply IH; [|exact Hrest].
  now apply dispatch_keeps_observed.
Qed.

Lemma join_cons (x : string) (parts : list string) :
  join (x :: parts) = x +:+ join parts.
Proof. reflexivity. Qed.

(** On attributes that carry values, the pieces [handle_starttag] joins are
    the attributes as the specification writes them. *)
Lemma join_render_attrs (attrs : list (string * option string)) (rest : list string) :
  Forall (fun a : string * option string => is_Some a.2) attrs ->
  join (map render_attr attrs ++ rest) = serialize_attrs attrs +:+ join rest.
Proof.
  induction 1 as [|[name v] attrs [x Hx] _ IH]; [reflexivity|].
  simpl in Hx. subst v. cbn [map app]. rewrite join_cons, IH.
  unfold render_attr. cbn [fst snd str_opt serialize_attrs].
  rewrite !string_app_assoc, !app_cons, !string_app_assoc, !app_cons, !app_nil_l.
  reflexivity.
Qed.

Lemma render_event_serialize (e : event) :
  attrs_valued e -> render_event e = serialize_event e.
Proof.
  destruct e as [tag attrs|data|tag]; intros Hv; simpl in *.
  - unfold render_starttag. cbn [app]. rewrite !join_cons, join_render_attrs by exact Hv.
    reflexivity.
  - reflexivity.
  - unfold render_endtag. rewrite !join_cons. reflexivity.
Qed.

Lemma join_render_events (evs : list event) :
  Forall attrs_valued evs -> join (map render_event evs) = serialize_events evs.
Proof.
  induction 1 as [|e evs He _ IH]; [reflexivity|].
  cbn [map serialize_events]. rewrite join_cons, IH, render_event_serialize by exact He.
  reflexivity.
Qed.


(** C9. While an identifier field is open and nothing is recorded yet, the
    first text becomes the observed identifier; text outside an identifier
    field records nothing; no later event overwrites the recorded identifier
    until the next [<page>] start tag, which resets it; and at [</page>]
    the snapshot is taken exactly when the observed identifier and the target
    are equal as strings. *)
Theorem observed_id_first_text (p : MWParser) (data : string) (evs : list event) :
  searching p -> curr_tag_id p = true -> observed_id p = None ->
  Forall (fun e => is_page_start e = false) evs ->
  observed_id (handle_data p data) = Some data /\
  observed_id (feed_events p (Data data :: evs)) = Some data /\
  (forall q text, curr_tag_id q = false ->
     observed_id (handle_data q text) = observed_id q) /\
  (forall q attrs, searching q ->
     observed_id (handle_starttag q "page" attrs) = None) /\
  (forall q, searching q ->
     final_lines (handle_endtag q "page") <> [] <->
     str_opt (observed_id q) = true_id q).
Proof.
  intros Hs Hc Ho Hall.
  assert (observed_id (handle_data p data) = Some data) as H1.
  { unfold handle_data, searching in *. rewrite Hs. simpl. rewrite Hc, Ho. reflexivity. }
  split; [exact H1|]. split.
  { rewrite feed_events_cons. now apply feed_events_keeps_observed. }
  split.
  { intros q text Hq. unfold handle_data.
    destruct (truthy (final_lines q)); simpl; [reflexivity|].
    rewrite Hq. reflexivity. }
  split.
  { intros q attrs Hq. unfold handle_starttag, searching in *. rewrite Hq.
    reflexivity. }
  intros q Hq. unfold handle_endtag, searching in *. rewrite Hq. simpl.
  destruct (decide (str_opt (observed_id q) = true_id q)) as [E|E].
  - rewrite (bool_decide_eq_true_2 _ E). simpl. split; [auto|].
    intros _. destruct (lines q); discriminate.
  - rewrite (bool_decide_eq_false_2 _ E). simpl. rewrite Hq.
    split; [congruence | contradiction].
Qed.

End ScannerClaims.

Section ScannerWitnesses.
Import PyStr Reader Block Examples.

Lemma three_docs_well_formed : Forall well_formed three_docs.
Proof.
  repeat constructor; simpl; repeat constructor.
Qed.

Lemma three_docs_distinct : NoDup (map doc_id three_docs).
Proof. apply (bool_decide_unpack _). vm_compute. exact I. Qed.

Lemma doc_c_attrs_valued : Forall attrs_valued (doc_events doc_c).
Proof. repeat constructor; simpl; eauto. Qed.


Lemma observed_id_first_text_witness :
  observed_id (feed_events (mkMWParser "12" None ["<page>"; "<id>"] true [])
                 [Data "12"; EndTag "id"; StartTag "revision" [];
                  StartTag "id" []; Data "25"; EndTag "id"]) = Some "12".
Proof.
  refine (proj1 (proj2
    (observed_id_first_text (mkMWParser "12" None ["<page>"; "<id>"] true [])
       "12" [EndTag "id"; StartTag "revision" [];
             StartTag "id" []; Data "25"; EndTag "id"] _ _ _ _))).
  - reflexivity.
  - reflexivity.
  - reflexivity.
  - repeat constructor.
Defined.

End ScannerWitnesses.

(** ** Byte ranges and retrieval *)

Section Retrieval.
Import PyStr Reader Block.
Context `{Library}.

Lemma drop_length_take {A} (n : nat) (l : list A) :
  drop (length (take n l)) l = drop n l.
Proof.
  rewrite length_take. destruct (decide (n <= length l)) as [Hle|Hgt].
  - now rewrite Nat.min_l.
  - rewrite Nat.min_r by lia. rewrite !drop_ge by lia. reflexivity.
Qed.

Lemma file_read_minus_one (f : file) :
  file_read f (-1) =
    Ok (drop (position f) (contents f),
        mkFile (contents f)
          (position f + length (drop (position f) (contents f)))).
Proof. reflexivity. Qed.

Lemma file_read_below (f : file) (size : Z) :
  (size < -1)%Z -> file_read f size = Err ValueError.
Proof.
  intros Hs. unfold file_read.
  destruct (Z.ltb_spec size (-1)) as [_|?]; [reflexivity | lia].
Qed.

Lemma file_read_size (f : file) (size : Z) :
  (0 <= size)%Z ->
  file_read f size =
    Ok (take (Z.to_nat size) (drop (position f) (contents f)),
        mkFile (contents f)
          (position f +
           length (take (Z.to_nat size) (drop (position f) (contents f))))).
Proof.
  intros Hs. unfold file_read.
  destruct (Z.ltb_spec size (-1)) as [?|_]; [lia|].
  destruct (Z.eqb_spec size (-1)) as [?|_]; [lia|]. reflexivity.
Qed.

(** The two [read] calls for a non-negative start offset: the first one
    leaves the cursor at the start offset (or at the end of the archive),
    and the second one decides. *)
Lemma bytes_of_interest_from (archive : list byte) (start_index end_index : Z) :
  (0 <= start_index)%Z ->
  bytes_of_interest archive start_index end_index =
    match file_read (mkFile archive (length (take (Z.to_nat start_index) archive)))
                    (end_index - start_index) with
    | Err e => Err e
    | Ok (bytes, _) => Ok bytes
    end.
Proof.
  intros Hs. unfold bytes_of_interest, open_rb.
  rewrite (file_read_size _ _ Hs). cbn [contents position]. rewrite drop_0.
  reflexivity.
Qed.

(** C6. For an index entry with [0 <= start_offset] and a real [end_offset]
    inside the archive, the extraction passes over the first [start_offset]
    bytes, keeps none of them, reads exactly [end_offset - start_offset]
    bytes, and its result is the decompressed and decoded text of exactly
    these bytes.  With the sentinel [-1] as [end_offset] the size handed to
    the second [read] is [-1 - start_offset]: the rest of the archive is
    read only when [start_offset] is 0; for every [start_offset] from 1 on
    the [read] raises [ValueError] and nothing is decompressed. *)
Theorem extract_indexed_range_sentinel_raises
    (archive : list byte) (start_index end_index : Z) :
  (0 <= start_index)%Z ->
  let span := take (Z.to_nat (end_index - start_index))
                   (drop (Z.to_nat start_index) archive) in
  ((start_index <= end_index <= Z.of_nat (length archive))%Z ->
     bytes_of_interest archive start_index end_index = Ok span /\
     Z.of_nat (length span) = (end_index - start_index)%Z /\
     extract_indexed_range archive start_index end_index =
       match bz2_decompress span with
       | None => Err DecompressError
       | Some raw =>
           match bytes_decode raw with
           | None => Err DecodeError
           | Some text => Ok text
           end
       end) /\
  (end_index = (-1)%Z ->
     bytes_of_interest archive start_index end_index =
       (if decide (start_index = 0%Z) then Ok archive else Err ValueError) /\
     ((1 <= start_index)%Z ->
        extract_indexed_range archive start_index end_index = Err ValueError)).
Proof.
  intros Hstart span. split.
  - intros Hend.
    assert (bytes_of_interest archive start_index end_index = Ok span) as Hb.
    { rewrite bytes_of_interest_from by exact Hstart.
      rewrite file_read_size by lia. cbn [contents position].
      rewrite drop_length_take. reflexivity. }
    split; [exact Hb|]. split.
    + unfold span. rewrite length_take, length_drop. lia.
    + unfold extract_indexed_range. rewrite Hb. reflexivity.
  - intros ->.
    assert (bytes_of_interest archive start_index (-1) =
            if decide (start_index = 0%Z) then Ok archive else Err ValueError) as Hb.
    { rewrite bytes_of_interest_from by exact Hstart.
      destruct (decide (start_index = 0%Z)) as [->|Hne].
      - reflexivity.
      - rewrite file_read_below by lia. reflexivity. }
    split; [exact Hb|]. intros Hone.
    unfold extract_indexed_range. rewrite Hb.
    destruct (decide (start_index = 0%Z)); [lia | reflexivity].
Qed.

(** An error of the extraction is never the not-found error. *)
Lemma extract_indexed_range_error (archive : list byte) (start_index end_index : Z)
    (e : error) :
  extract_indexed_range archive start_index end_index = Err e ->
  e = ValueError \/ e = DecompressError \/ e = DecodeError.
Proof.
  assert (forall f size e', file_read f size = Err e' -> e' = ValueError) as Hread.
  { intros f size e'. unfold file_read. destruct (size <? -1)%Z; congruence. }
  unfold extract_indexed_range, bytes_of_interest, decompress_decode.
  destruct (file_read _ start_index) as [[got f1]|e1] eqn:H1.
  - destruct (file_read f1 _) as [[bytes f2]|e2] eqn:H2.
    + destruct (bz2_decompress bytes) as [raw|]; [|intros [= <-]; auto].
      destruct (bytes_decode raw); [discriminate | intros [= <-]; auto].
    + intros [= <-]. left. eapply Hread, H2.
  - intros [= <-]. left. eapply Hread, H1.
Qed.

Lemma dispatch_no_page_end p e :
  searching p -> is_page_end e = false -> searching (dispatch p e).
Proof.
  unfold searching. intros Hs He.
  destruct e as [tag attrs|data|tag]; simpl in *;
    unfold handle_starttag, handle_data, handle_endtag; rewrite Hs; simpl.
  - destruct (decide (tag = "page")); [exact Hs|].
    destruct (decide (tag = "id")); exact Hs.
  - destruct (curr_tag_id p), (observed_id p); exact Hs.
  - rewrite He. simpl. destruct (decide (tag = "id")); exact Hs.
Qed.

(** A cut-off rest of a block, with no end of a page in it, leaves the
    scanner searching. *)
Lemma feed_events_no_page_end evs : forall p,
  searching p -> Forall (fun e => is_page_end e = false) evs ->
  searching (feed_events p evs).
Proof.
  induction evs as [|e evs IH]; intros p Hs Hall; [exact Hs|].
  inversion Hall as [|? ? He Hrest]; subst.
  rewrite feed_events_cons. apply IH; [|exact Hrest].
  now apply dispatch_no_page_end.
Qed.

(** A block in which no document carries the target identifier: a leading
    fragment without page tags, whole documents with other identifiers, and
    a cut-off rest. *)
Lemma scan_without_match (id : string) (lead : list event)
    (docs : list document) (tail : list event) :
  Forall (fun e => is_page_tag e = false) lead ->
  Forall well_formed docs ->
  Forall (fun d => doc_id d <> id) docs ->
  Forall (fun e => is_page_end e = false) tail ->
  final_lines (feed_events (MWParser_init id) (lead ++ block docs ++ tail)) = [].
Proof.
  intros Hlead Hwf Hne Htail. rewrite !feed_events_app.
  destruct (feed_events_inside lead (MWParser_init id) eq_refl Hlead) as (Hs1 & _ & _).
  pose proof (feed_events_true_id lead (MWParser_init id)) as Ht1.
  set (p1 := feed_events (MWParser_init id) lead) in *. clearbody p1.
  apply feed_events_no_page_end; [|exact Htail].
  apply scan_block_no_match; [exact Hs1 | exact Hwf |].
  eapply Forall_impl; [exact Hne|]. intros x Hx. cbv beta. rewrite Ht1. exact Hx.
Qed.

(** C2 fails on the code.  When the row chosen for a title leads to a block
    in which no document carries the row's identifier (whole documents with
    other identifiers, between a leading fragment and a cut-off rest),
    retrieval returns the empty text as its result and records it under the
    title; the not-found error is raised only on the sibling path, when the
    index holds no row for the title. *)
Theorem retrieval_without_match_returns_empty_text
    (s : searcher) (title : string) (r : row) (rest : list row)
    (xml_block : string) (lead : list event) (docs : list document)
    (tail : list event) :
  select_by_title s title = r :: rest ->
  extract_indexed_range (multistream s) (start_index r) (end_index r) = Ok xml_block ->
  goahead xml_block = lead ++ block docs ++ tail ->
  Forall (fun e => is_page_tag e = false) lead ->
  Forall well_formed docs ->
  Forall (fun d => doc_id d <> page_id r) docs ->
  Forall (fun e => is_page_end e = false) tail ->
  retrieve_article_xml s title =
    (mkSearcher (multistream s) (index s)
       (<[row_title r := EmptyString]> (retrieved_pages s)),
     Ok EmptyString) /\
  (forall s' title',
     (exists t, (retrieve_article_xml s' title').2 = Err (ArticleNotFoundError t)) <->
     select_by_title s' title' = []).
Proof.
  intros Hsel Hex Hev Hlead Hwf Hne Htail.
  split.
  - unfold retrieve_article_xml. rewrite Hsel, Hex. unfold feed. rewrite Hev.
    rewrite scan_without_match by assumption. reflexivity.
  - intros s' title'. unfold retrieve_article_xml.
    destruct (select_by_title s' title') as [|r' rest']; simpl.
    + split; [reflexivity | intros _; eexists; reflexivity].
    + split; [|discriminate]. intros [t Ht].
      destruct (extract_indexed_range (multistream s') _ _) as [text|e] eqn:He;
        simpl in Ht;
        [discriminate|].
      injection Ht as ->.
      apply extract_indexed_range_error in He as [?|[?|?]]; discriminate.
Qed.

End Retrieval.

Section RetrievalWitnesses.
Import PyStr Reader Block Examples.

Lemma three_docs_not_seven :
  Forall (fun d => doc_id d <> "7") three_docs.
Proof. repeat constructor; discriminate. Qed.

Lemma extract_indexed_range_sentinel_raises_witness :
  bytes_of_interest ten_bytes 2 6 = Ok (list_byte_of_string "cdef") /\
  @extract_indexed_range (stored_library []) ten_bytes 2 (-1) = Err ValueError.
Proof.
  split.
  - refine (proj1 (proj1 (@extract_indexed_range_sentinel_raises
                            (stored_library []) ten_bytes 2 6 _) _)).
    + lia.
    + simpl. lia.
  - refine (proj2 (proj2 (@extract_indexed_range_sentinel_raises
                            (stored_library []) ten_bytes 2 (-1) _) _) _).
    + lia.
    + reflexivity.
    + lia.
Defined.

(** The block behind the row for [Zebra]: the end of a document cut off at
    the start of the block, the three documents, and the start of a document
    with identifier [7] cut off at the end of the block. *)
Lemma retrieval_without_match_returns_empty_text_witness :
  @retrieve_article_xml
    (stored_library ([Data "tail"; EndTag "revision"] ++ block three_docs
                     ++ [StartTag "page" []; StartTag "id" []; Data "7"]))
    zebra_searcher "Zebra" =
    (mkSearcher ten_bytes [mkRow 2 "7" "Zebra" 6] (<["Zebra" := EmptyString]> ∅),
     Ok EmptyString).
Proof.
  refine (proj1 (@retrieval_without_match_returns_empty_text
                   (stored_library ([Data "tail"; EndTag "revision"] ++ block three_docs
                                    ++ [StartTag "page" []; StartTag "id" []; Data "7"]))
                   zebra_searcher "Zebra"
                   (mkRow 2 "7" "Zebra" 6) [] "cdef"
                   [Data "tail"; EndTag "revision"] three_docs
                   [StartTag "page" []; StartTag "id" []; Data "7"] _ _ _ _ _ _ _)).
  - reflexivity.
  - reflexivity.
  - reflexivity.
  - repeat constructor.
  - exact three_docs_well_formed.
  - exact three_docs_not_seven.
  - repeat constructor.
Defined.

End RetrievalWitnesses.

(** ** The index builder *)

Section IndexBuilderClaims.
Import PyStr Sqlite IndexBuilder.

(** The offsets are compared as text: ["100"] sorts before ["99"]. *)
Lemma byte_values_textual : byte_values ["99"; "100"] = ["100"; "99"].
Proof. vm_compute. reflexivity. Qed.

(** C7 on the listing [99:1:A], [100:2:B]: the entry of the block at offset
    100, the last one of the archive, gets [end_offset] 99, below its
    [start_offset], and the entry of the block at offset 99 gets the
    read-to-end sentinel although the block at 100 follows it. *)
Theorem build_rows_textual_order :
  build_rows ["99:1:A"; "100:2:B"] =
    Some [[PyStr "99"; PyStr "1"; PyStr "A"; PyInt (-1)];
          [PyStr "100"; PyStr "2"; PyStr "B"; PyStr "99"]].
Proof. vm_compute. reflexivity. Qed.

End IndexBuilderClaims.

(** ** The crawl engine *)

Section CrawlFacts.
Import Crawl.
Context `{Collaborators}.

#[local] Arguments add_node : simpl never.
#[local] Arguments add_edge : simpl never.
#[local] Arguments fresh_classification : simpl never.

Ltac unfold_M :=
  unfold bind, ret, ask, get, modify, raise in *; simpl in *.

Lemma add_node_counter article s : counter (add_node article s).1 = counter s.
Proof.
  unfold add_node. unfold_M.
  destruct (properties (world s) article) as [props|]; simpl; [|reflexivity].
  destruct (get_or_none (nodes s) props); reflexivity.
Qed.

Lemma add_node_world article s : world (add_node article s).1 = world s.
Proof.
  unfold add_node. unfold_M.
  destruct (properties (world s) article) as [props|]; simpl; [|reflexivity].
  destruct (get_or_none (nodes s) props); reflexivity.
Qed.

Lemma add_edge_counter a b s : counter (add_edge a b s).1 = counter s.
Proof.
  unfold add_edge. unfold_M. destruct (decide _); reflexivity.
Qed.

(** The counter after one link. *)
Lemma process_link_counter current linked_article s :
  counter (process_link current linked_article s).1 =
    (counter s +
     match retrieve_classification (world s) linked_article with
     | Returned None =>
         if is_true (fresh_classification (world s) linked_article).2 then 1 else 0
     | _ => 0
     end)%Z.
Proof.
  unfold process_link, add_edge, add_node. unfold_M.
  destruct (retrieve_classification (world s) linked_article) as [[v|]|] eqn:Est;
    simpl; [| |lia].
  - destruct v; simpl; [|lia].
    destruct (child_node s) as [child|]; simpl; [|lia].
    destruct (decide _); simpl; lia.
  - destruct (fresh_classification (world s) linked_article) as [w' v] eqn:Ef.
    simpl. destruct (is_true v) eqn:Ev; simpl; [|lia].
    destruct (properties w' (VArticle linked_article)) as [props|]; simpl; [|lia].
    destruct (get_or_none (nodes s) props) as [n|]; simpl;
      destruct (decide _); simpl; lia.
Qed.

Lemma process_link_counter_mono current linked_article s :
  (counter s <= counter (process_link current linked_article s).1)%Z.
Proof.
  rewrite process_link_counter.
  destruct (retrieve_classification (world s) linked_article) as [[v|]|]; try lia.
  destruct (is_true _); lia.
Qed.

Lemma process_links_counter_mono current links : forall s,
  (counter s <= counter (process_links current links s).1)%Z.
Proof.
  induction links as [|l links IH]; intros s; simpl; [unfold ret; simpl; lia|].
  unfold bind. pose proof (process_link_counter_mono current l s) as H1.
  destruct (process_link current l s) as [s1 [[]|]]; simpl in *; [|exact H1].
  specialize (IH s1). lia.
Qed.

Lemma crawl_loop_counter_mono rounds : forall continue_search s,
  (counter s <= counter (crawl_loop rounds continue_search s).1)%Z.
Proof.
  induction rounds as [|rounds IH]; intros cs s; simpl; unfold_M.
  - destruct (search_queue s); simpl; [lia|]. destruct cs; simpl; lia.
  - destruct (search_queue s) as [|current queue']; simpl; [lia|].
    destruct cs; simpl; [|lia].
    unfold node_links. unfold_M.
    destruct (cls_article s) as [[a|items]|]; simpl; try lia.
    destruct (outgoing_links (world s) a) as [links|]; simpl.
    + set (s1 := set_search_queue s queue').
      pose proof (process_links_counter_mono current links s1) as H1.
      destruct (process_links current links s1) as [s2 [[]|]]; simpl in *; [|exact H1].
      specialize (IH (counter s2 <? 150)%Z s2). lia.
    + specialize (IH true (set_search_queue s queue')). simpl in IH. exact IH.
Qed.

Lemma is_true_spec (v : option bool) : is_true v = true <-> v = Some true.
Proof. destruct v as [[|]|]; simpl; split; congruence. Qed.

(** A cached positive verdict: no node is looked up or made for the link;
    the edge and the queue entry use whatever [child_node] holds. *)
Lemma process_link_cached_positive current linked_article s :
  retrieve_classification (world s) linked_article = Returned (Some true) ->
  process_link current linked_article s =
    match child_node s with
    | None => (s, Raised)
    | Some child =>
        let s1 := (add_edge current child s).1 in
        (set_search_queue s1 (search_queue s1 ++ [child]), Returned tt)
    end.
Proof.
  intros Hst. unfold process_link, add_edge. unfold_M. rewrite Hst. simpl.
  destruct (child_node s); reflexivity.
Qed.

(** C4. The acceptance counter never decreases, over one link, over the
    links of a node and over the whole crawl; one link raises it by exactly 1
    if and only if the link had no cached verdict and its fresh
    classification is positive; a link with a cached verdict leaves it
    unchanged. *)
Theorem acceptance_counter_fresh_positive_only
    (current : node) (linked_article : Article) (s : state) :
  let s' := (process_link current linked_article s).1 in
  (counter s <= counter s')%Z /\
  (counter s' = counter s \/ counter s' = (counter s + 1)%Z) /\
  (counter s' = (counter s + 1)%Z <->
     retrieve_classification (world s) linked_article = Returned None /\
     (fresh_classification (world s) linked_article).2 = Some true) /\
  (forall v, retrieve_classification (world s) linked_article = Returned (Some v) ->
     counter s' = counter s) /\
  (forall links s0, (counter s0 <= counter (process_links current links s0).1)%Z) /\
  (forall rounds continue_search s0,
     (counter s0 <= counter (crawl_loop rounds continue_search s0).1)%Z).
Proof.
  intros s'. subst s'. rewrite process_link_counter.
  pose proof (is_true_spec (fresh_classification (world s) linked_article).2) as Ht.
  repeat split.
  - destruct (retrieve_classification _ _) as [[v|]|]; try lia.
    destruct (is_true _); lia.
  - destruct (retrieve_classification _ _) as [[v|]|]; try lia.
    destruct (is_true _); lia.
  - destruct (retrieve_classification _ _) as [[v|]|]; try lia; try reflexivity.
  - destruct (retrieve_classification _ _) as [[v|]|]; try lia.
    destruct (is_true _); [apply Ht; reflexivity | lia].
  - intros [Hst Hf]. rewrite Hst. apply Ht in Hf. rewrite Hf. reflexivity.
  - intros v Hv. rewrite Hv. lia.
  - intros links s0. apply process_links_counter_mono.
  - intros rounds cs s0. apply crawl_loop_counter_mono.
Qed.

(** C5. A link without cached verdict whose extraction or classification
    raises is handled as classified negative: nothing is counted, registered
    or enqueued, the call returns, and the loop goes on with the next link. *)
Theorem failing_link_is_negative
    (current : node) (linked_article : Article) (rest : list Article) (s : state) :
  retrieve_classification (world s) linked_article = Returned None ->
  (retrieve_article_xml (world s) (VArticle linked_article)).2 = Raised \/
  retrieve_classification
    (retrieve_article_xml (world s) (VArticle linked_article)).1 linked_article = Raised ->
  let s' := set_world s (retrieve_article_xml (world s) (VArticle linked_article)).1 in
  process_link current linked_article s = (s', Returned tt) /\
  process_links current (linked_article :: rest) s = process_links current rest s'.
Proof.
  intros Hst Hraise s'.
  assert (process_link current linked_article s = (s', Returned tt)) as Hp.
  { unfold process_link. unfold_M. rewrite Hst. simpl.
    assert (fresh_classification (world s) linked_article =
            ((retrieve_article_xml (world s) (VArticle linked_article)).1, Some false))
      as ->.
    { unfold fresh_classification.
      destruct (retrieve_article_xml (world s) (VArticle linked_article))
        as [w' [[]|]]; simpl in *; [|reflexivity].
      destruct Hraise as [?|Hc]; [discriminate|]. rewrite Hc. reflexivity. }
    simpl. subst s'. unfold set_counter, set_world. simpl.
    rewrite Z.add_0_r. reflexivity. }
  split; [exact Hp|].
  simpl. unfold bind. rewrite Hp. reflexivity.
Qed.

(** C8 fails on the code: the seed loop runs over the one-element list
    [[SEED_LIST[0:2]]], so its body sees the slice itself, once, whatever
    the seed list holds, and at most one node is queued after seeding. *)
Theorem seeding_enqueues_at_most_one (SEED_LIST : list Seed) (s : state) :
  seed_items SEED_LIST = [VSeeds (take 2 SEED_LIST)] /\
  length (search_queue (seeding SEED_LIST s).1) <= 1.
Proof.
  split; [reflexivity|].
  unfold seeding, seed_items, seed_loop, seed_one, clear, add_node. unfold_M.
  destruct (retrieve_article_xml (world s) (VSeeds (take 2 SEED_LIST)))
    as [w' [[]|]]; simpl; [|lia].
  destruct (properties w' (VSeeds (take 2 SEED_LIST))) as [props|]; simpl; [|lia].
  destruct (get_or_none [] props); simpl; lia.
Qed.

End CrawlFacts.

Section CrawlExamplesFacts.
Import Crawl CrawlExamples.

(** C3 fails on the code for a link with a cached positive verdict.  [Nina]
    links to [Adele] (no verdict yet, classified positive) and to [Beck]
    (cached positive): for [Beck] no node is registered, the second edge goes
    from [Nina] to the node of [Adele] again, and the node of [Adele] is
    queued a second time. *)
Theorem cached_positive_link_reuses_child_node :
  process_links nina ["Adele"; "Beck"] nina_dequeued =
    (mkState ({["Beck" := true; "Adele" := true]} : gmap string bool)
       [nina; adele] [(nina, adele)] (Some (VArticle "Adele"))
       [adele; adele] 2 (Some adele),
     Returned tt).
Proof. vm_compute. reflexivity. Qed.

(** With [child_node] still unbound, a cached positive link ends the run. *)
Lemma cached_positive_link_first_raises :
  (process_links nina ["Beck"; "Adele"] nina_dequeued).2 = Raised.
Proof. vm_compute. reflexivity. Qed.

(** Seeding with two seeds: the body runs on the list of both, which cannot
    be retrieved, and the queue stays empty. *)
Lemma seeding_two_seeds :
  seeding ["Adele"; "Beck"] nina_dequeued =
    (mkState ({["Beck" := true]} : gmap string bool) [] []
       (Some (VArticle "Nina")) [] 1 None,
     Raised).
Proof. vm_compute. reflexivity. Qed.

Lemma acceptance_counter_fresh_positive_only_witness :
  counter (process_link nina "Adele" nina_dequeued).1 = 2%Z /\
  counter (process_link nina "Beck" (process_link nina "Adele" nina_dequeued).1).1 = 2%Z.
Proof.
  split.
  - apply (proj1 (proj2 (proj2
      (acceptance_counter_fresh_positive_only nina "Adele" nina_dequeued)))).
    split; reflexivity.
  - apply (proj1 (proj2 (proj2 (proj2
      (acceptance_counter_fresh_positive_only nina "Beck"
         (process_link nina "Adele" nina_dequeued).1)))) true).
    reflexivity.
Defined.

Lemma failing_link_is_negative_witness :
  process_links nina ["Broken"; "Adele"] nina_dequeued =
  process_links nina ["Adele"] nina_dequeued.
Proof.
  refine (proj2 (failing_link_is_negative nina "Broken" ["Adele"] nina_dequeued _ _)).
  - reflexivity.
  - left. reflexivity.
Defined.

End CrawlExamplesFacts.

(** * Further properties of the code *)

(** ** [parse_colons] outside its intended inputs *)

Section ParseColonsEdges.
Import PyStr Sqlite.

Lemma substring_zero n s : substring n 0 s = EmptyString.
Proof.
  revert n. induction s as [|c r IH]; intros [|n]; simpl; try reflexivity.
  apply IH.
Qed.

Lemma parse_colons_None_iff (s : string) :
  parse_colons s = None <-> count_colons s = 0.
Proof.
  unfold parse_colons. pose proof (split_colon_head s) as H0.
  destruct (split_colon s) as [|p0 [|p1 ps]]; [contradiction| |].
  - destruct H0 as [_ H0]. split; auto.
  - destruct H0 as [_ (rest & _ & _ & Hc)]. split; [discriminate | lia].
Qed.

(** [parse_colons] raises its [IndexError] exactly on the strings that hold
    no colon. *)
Theorem parse_colons_raises_iff_no_colon (s : string) :
  parse_colons s = None <-> count_colons s = 0.
Proof. exact (parse_colons_None_iff s). Qed.

(** With exactly one colon the call does not fail: the third part is the
    empty string and the first two are the text before and after the colon,
    so a line [offset:id] without title yields an empty title. *)
Theorem parse_colons_one_colon (s : string) :
  count_colons s = 1 ->
  exists a b,
    parse_colons s = Some [a; b; EmptyString] /\
    no_colon a /\ no_colon b /\ a +:+ String colon b = s.
Proof.
  intros H1. unfold parse_colons.
  pose proof (split_colon_head s) as H0.
  destruct (split_colon s) as [|p0 [|p1 ps]] eqn:Es; [contradiction| |].
  - destruct H0 as [_ H0]. lia.
  - destruct H0 as [Hp0 (r1 & Hs & Hr1 & Hc1)].
    pose proof (split_colon_head r1) as Hh. rewrite Hr1 in Hh.
    destruct ps as [|p2 ps].
    + destruct Hh as [-> Hp1].
      exists p0, p1. repeat split; auto.
      do 4 f_equal. unfold slice, len. subst s.
      rewrite length_app_string. cbn [String.length].
      replace (String.length p0 + S (String.length p1) -
               (String.length p0 + String.length p1 + 2)) with 0 by lia.
      apply substring_zero.
    + destruct Hh as [_ (r2 & _ & _ & Hc2)]. lia.
Qed.

Lemma parse_colons_one_colon_witness :
  exists a b,
    parse_colons "616:10" = Some [a; b; EmptyString] /\
    no_colon a /\ no_colon b /\ a +:+ String colon b = "616:10".
Proof. apply (parse_colons_one_colon "616:10"). reflexivity. Defined.

(** Whatever the input, a result of [parse_colons] has three parts whose
    first two hold no colon. *)
Lemma parse_colons_shape (s : string) (parts : list string) :
  parse_colons s = Some parts ->
  exists a b c, parts = [a; b; c] /\ no_colon a /\ no_colon b.
Proof.
  unfold parse_colons. pose proof (split_colon_head s) as H0.
  destruct (split_colon s) as [|p0 [|p1 ps]] eqn:Es; [contradiction|discriminate|].
  destruct H0 as [Hp0 (r1 & Hs & Hr1 & Hc1)].
  pose proof (split_colon_head r1) as Hh. rewrite Hr1 in Hh.
  intros [= <-]. eexists _, _, _. split; [reflexivity|]. split; [exact Hp0|].
  destruct ps; [destruct Hh as [-> Hh]; exact Hh | destruct Hh as [Hh _]; exact Hh].
Qed.

End ParseColonsEdges.

(** ** The index builder: [byte_values], [byte_dict] and the rows *)

Section IndexBuilderFacts.
Import PyStr Sqlite IndexBuilder.

Lemma byte_values_spec (firsts : list string) :
  StronglySorted String.le (byte_values firsts) /\
  NoDup (byte_values firsts) /\
  (forall x, x ∈ byte_values firsts <-> x ∈ firsts).
Proof.
  unfold byte_values. split; [|split].
  - apply StronglySorted_merge_sort; apply _.
  - rewrite merge_sort_Permutation. apply NoDup_elements.
  - intros x. rewrite merge_sort_Permutation, elem_of_elements.
    apply elem_of_list_to_set.
Qed.

(** [byte_values] lists exactly the first fields it is given, each once, in
    the order Python gives to [str]: by character code, so that a longer
    number can come before a shorter one. *)
Theorem byte_values_sorted_set (firsts : list string) :
  StronglySorted String.le (byte_values firsts) /\
  NoDup (byte_values firsts) /\
  (forall x, x ∈ byte_values firsts <-> x ∈ firsts).
Proof. exact (byte_values_spec firsts). Qed.

(** The value the loop writes for the offset at position [i]. *)
Lemma byte_dict_step_insert (bvs : list string) d i byte :
  NoDup bvs -> bvs !! i = Some byte ->
  byte_dict_step bvs d (i, byte) =
    <[byte := match bvs !! S i with
              | Some nxt => PyStr nxt
              | None => PyInt (-1)
              end]> d.
Proof.
  intros Hnd Hi. unfold byte_dict_step.
  pose proof (lookup_lt_Some _ _ _ Hi) as Hlt.
  destruct (bvs !! S i) as [nxt|] eqn:Hn.
  - pose proof (lookup_lt_Some _ _ _ Hn) as Hlt'.
    replace (Nat.min (length bvs - 1) (i + 1)) with (S i) by lia.
    rewrite Hn. simpl. rewrite lookup_insert_eq.
    destruct (decide (Some (PyStr nxt) = Some (PyStr byte))) as [E|E]; [|reflexivity].
    exfalso. injection E as ->.
    pose proof (NoDup_lookup _ _ _ _ Hnd Hi Hn). lia.
  - apply lookup_ge_None in Hn.
    replace (Nat.min (length bvs - 1) (i + 1)) with i by lia.
    rewrite Hi. simpl. rewrite lookup_insert_eq.
    destruct (decide (Some (PyStr byte) = Some (PyStr byte))) as [E|E]; [|congruence].
    apply insert_insert_eq.
Qed.

Lemma byte_dict_fold (bvs : list string) (ps : list (nat * string)) :
  NoDup bvs -> NoDup (ps.*2) ->
  (forall i b, (i, b) ∈ ps -> bvs !! i = Some b) ->
  forall d k,
    fold_left (byte_dict_step bvs) ps d !! k =
      match list_find (fun p => p.2 = k) ps with
      | Some (_, (i, _)) =>
          Some (match bvs !! S i with
                | Some nxt => PyStr nxt
                | None => PyInt (-1)
                end)
      | None => d !! k
      end.
Proof.
  intros Hnd. induction ps as [|[i b] ps IH]; intros Hps Hin d k; [reflexivity|].
  simpl in Hps. apply NoDup_cons in Hps as [Hb Hps].
  cbn [fold_left].
  rewrite byte_dict_step_insert by (auto; apply Hin; left).
  rewrite IH; [|exact Hps|intros; apply Hin; now right].
  cbn [list_find]. simpl.
  destruct (decide (b = k)) as [->|Hne].
  - destruct (list_find (λ p, p.2 = k) ps) as [[j [i' b']]|] eqn:Hf.
    + exfalso. apply list_find_Some in Hf as (Hj & Hk & _). simpl in Hk. subst b'.
      apply Hb. apply list_elem_of_fmap. exists (i', k). split; [reflexivity|].
      eapply list_elem_of_lookup_2; eauto.
    + simpl. apply lookup_insert_eq.
  - destruct (list_find (λ p, p.2 = k) ps) as [[j [i' b']]|] eqn:Hf; simpl;
      [reflexivity|]. now apply lookup_insert_ne.
Qed.

Lemma imap_pair_snd {A} (l : list A) : (imap pair l).*2 = l.
Proof.
  rewrite fmap_imap.
  rewrite (imap_ext _ (fun _ x => x)); [|reflexivity].
  induction l as [|x l IH]; [reflexivity|].
  rewrite imap_cons. f_equal. exact IH.
Qed.

Lemma byte_dict_lookup (bvs : list string) :
  NoDup bvs ->
  (forall i b, bvs !! i = Some b ->
     byte_dict bvs !! b =
       Some (match bvs !! S i with
             | Some nxt => PyStr nxt
             | None => PyInt (-1)
             end)) /\
  (forall k, k ∉ bvs -> byte_dict bvs !! k = None).
Proof.
  intros Hnd.
  assert (forall k, byte_dict bvs !! k =
            match list_find (fun p : nat * string => p.2 = k) (imap pair bvs) with
            | Some (_, (i, _)) =>
                Some (match bvs !! S i with
                      | Some nxt => PyStr nxt
                      | None => PyInt (-1)
                      end)
            | None => None
            end) as Hk.
  { intros k. unfold byte_dict. rewrite (byte_dict_fold bvs); auto.
    - now rewrite imap_pair_snd.
    - intros i b Hin. apply elem_of_lookup_imap in Hin as (j & y & [= -> ->] & Hj).
      exact Hj. }
  split.
  - intros i b Hi. rewrite Hk.
    destruct (list_find _ (imap pair bvs)) as [[j [i' b']]|] eqn:Hf.
    + apply list_find_Some in Hf as (Hj & Hb & _). simpl in Hb. subst b'.
      apply list_lookup_imap_Some in Hj as (y & Hy & [= -> ->]).
      pose proof (NoDup_lookup _ _ _ _ Hnd Hi Hy). subst. reflexivity.
    + exfalso. apply list_find_None in Hf.
      rewrite Forall_forall in Hf. apply (Hf (i, b)); [|reflexivity].
      now apply (elem_of_lookup_imap_2 pair).
  - intros k Hnot. rewrite Hk.
    destruct (list_find _ (imap pair bvs)) as [[j [i' b']]|] eqn:Hf; [|reflexivity].
    exfalso. apply list_find_Some in Hf as (Hj & Hb & _). simpl in Hb. subst b'.
    apply list_lookup_imap_Some in Hj as (y & Hy & [= -> ->]).
    apply Hnot. eapply list_elem_of_lookup_2; eauto.
Qed.

(** [byte_dict] maps every offset of a duplicate-free list to the offset
    that follows it in the list, and the last offset to the [int] [-1]; it
    holds no other key. *)
Theorem byte_dict_next (bvs : list string) :
  NoDup bvs ->
  (forall i b, bvs !! i = Some b ->
     byte_dict bvs !! b =
       Some (match bvs !! S i with
             | Some nxt => PyStr nxt
             | None => PyInt (-1)
             end)) /\
  (forall k, k ∉ bvs -> byte_dict bvs !! k = None).
Proof. exact (byte_dict_lookup bvs). Qed.

Lemma byte_dict_next_witness :
  byte_dict ["616"; "700"; "8000"] !! "700" = Some (PyStr "8000") /\
  byte_dict ["616"; "700"; "8000"] !! "8000" = Some (PyInt (-1)).
Proof.
  assert (NoDup ["616"; "700"; "8000"]) as Hnd
    by (apply (bool_decide_unpack _); vm_compute; exact I).
  split.
  - exact (proj1 (byte_dict_next ["616"; "700"; "8000"] Hnd) 1 "700" eq_refl).
  - exact (proj1 (byte_dict_next ["616"; "700"; "8000"] Hnd) 2 "8000" eq_refl).
Defined.

End IndexBuilderFacts.

Section BuildRowsFacts.
Import PyStr Sqlite IndexBuilder.

Lemma build_rows_inv (lines : list string) (rows : list (list pyval)) :
  build_rows lines = Some rows <->
  exists row_values firsts,
    mapM parse_colons lines = Some row_values /\
    mapM (fun val : list string => val !! 0) row_values = Some firsts /\
    mapM (append_last_byte (byte_dict (byte_values firsts))) row_values = Some rows.
Proof.
  unfold build_rows. split.
  - destruct (mapM parse_colons lines) as [row_values|]; [|discriminate]. simpl.
    destruct (mapM _ row_values) as [firsts|] eqn:Hf; [|discriminate]. simpl.
    intros Hr. exists row_values, firsts. repeat split; auto.
  - intros (row_values & firsts & -> & Hf & Hr). simpl. rewrite Hf. simpl. exact Hr.
Qed.

Lemma StronglySorted_lookup_lt {A} (R : relation A) (l : list A) i j x y :
  StronglySorted R l -> l !! i = Some x -> l !! j = Some y -> i < j -> R x y.
Proof.
  intros Hs. revert i j. induction Hs as [|z l Hs IH Hall]; intros i j Hi Hj Hlt;
    [discriminate|].
  destruct j as [|j]; [lia|]. simpl in Hj.
  destruct i as [|i]; simpl in Hi.
  - injection Hi as ->. rewrite Forall_forall in Hall. apply Hall.
    eapply list_elem_of_lookup_2; eauto.
  - apply (IH i j); auto. lia.
Qed.

Lemma byte_dict_has_first (firsts : list string) (a : string) :
  a ∈ firsts ->
  exists last,
    byte_dict (byte_values firsts) !! a = Some last /\
    (last = PyInt (-1) \/
     exists nxt, last = PyStr nxt /\ nxt <> a /\ String.le a nxt /\ nxt ∈ firsts).
Proof.
  intros Hin.
  destruct (byte_values_spec firsts) as (Hsorted & Hnd & Hel).
  apply Hel in Hin. apply list_elem_of_lookup_1 in Hin as [i Hi].
  destruct (byte_dict_lookup _ Hnd) as [Hnext _].
  rewrite (Hnext i a Hi). eexists. split; [reflexivity|].
  destruct (byte_values firsts !! S i) as [nxt|] eqn:Hn; [|now left].
  right. exists nxt. split; [reflexivity|]. split; [|split].
  - intros ->. pose proof (NoDup_lookup _ _ _ _ Hnd Hi Hn). lia.
  - eapply (StronglySorted_lookup_lt String.le); eauto.
  - apply Hel. eapply list_elem_of_lookup_2; eauto.
Qed.

(** The script gets past the parsing and the [byte_dict] lookups exactly when
    every line of the listing holds a colon: the lookup [byte_dict[row[0]]]
    never raises a [KeyError]. *)
Theorem build_rows_succeeds_iff (lines : list string) :
  is_Some (build_rows lines) <-> Forall (fun line => 1 <= count_colons line) lines.
Proof.
  split.
  - intros [rows Hr]. apply build_rows_inv in Hr as (rv & firsts & Hp & _ & _).
    apply mapM_Some_1 in Hp. rewrite Forall_forall. intros line Hin.
    apply list_elem_of_lookup_1 in Hin as [i Hi].
    destruct (Forall2_lookup_l _ _ _ i line Hp Hi) as (parts' & _ & Hparts').
    destruct (count_colons line) eqn:Hc; [|lia].
    apply parse_colons_None_iff in Hc. congruence.
  - intros Hall.
    assert (is_Some (mapM parse_colons lines)) as [rv Hrv].
    { apply mapM_is_Some. eapply Forall_impl; [exact Hall|]. intros line Hc. simpl.
      destruct (parse_colons line) eqn:Hp; [eauto|].
      apply parse_colons_None_iff in Hp. cbv beta in Hc. lia. }
    pose proof (mapM_Some_1 _ _ _ Hrv) as Hshape.
    assert (Forall (fun row : list string => exists a b c, row = [a; b; c]) rv) as Hrows.
    { rewrite Forall_forall. intros row Hin.
      apply list_elem_of_lookup_1 in Hin as [i Hi].
      destruct (Forall2_lookup_r _ _ _ i row Hshape Hi) as (line & _ & Hp).
      apply parse_colons_shape in Hp as (a & b & c & -> & _). eauto. }
    assert (is_Some (mapM (fun val : list string => val !! 0) rv)) as [firsts Hf].
    { apply mapM_is_Some. eapply Forall_impl; [exact Hrows|].
      intros row (a & b & c & ->). simpl. eauto. }
    assert (is_Some (mapM (append_last_byte (byte_dict (byte_values firsts))) rv))
      as [rows Hr].
    { apply mapM_is_Some. rewrite Forall_forall. intros row Hin.
      apply list_elem_of_lookup_1 in Hin as [i Hi].
      pose proof (mapM_Some_1 _ _ _ Hf) as Hf2.
      destruct (Forall2_lookup_l _ _ _ i row Hf2 Hi) as (a & Ha & Hrow0).
      destruct (byte_dict_has_first firsts a) as (last & Hlast & _).
      { eapply list_elem_of_lookup_2; eauto. }
      simpl. unfold append_last_byte. rewrite Hrow0. simpl. rewrite Hlast. simpl. eauto. }
    exists rows. apply build_rows_inv. eauto.
Qed.

Lemma build_rows_succeeds_iff_witness :
  is_Some (build_rows ["616:10:A"; "616:12:B:c"; "700:2:D"]).
Proof.
  apply (proj2 (build_rows_succeeds_iff ["616:10:A"; "616:12:B:c"; "700:2:D"])).
  repeat constructor.
Defined.

(** The rows come out in listing order, one per line, each made of the three
    fields [parse_colons] returns for the line and a fourth cell that is
    either the [int] [-1] or the first field of another line, different from
    the row's own and not before it in the order of [str]. *)
Theorem build_rows_shape (lines : list string) (rows : list (list pyval)) :
  build_rows lines = Some rows ->
  Forall2 (fun line row =>
    exists a b c last,
      parse_colons line = Some [a; b; c] /\
      row = [PyStr a; PyStr b; PyStr c; last] /\
      (last = PyInt (-1) \/
       exists nxt, last = PyStr nxt /\ nxt <> a /\ String.le a nxt /\
         exists line' b' c', line' ∈ lines /\ parse_colons line' = Some [nxt; b'; c']))
    lines rows.
Proof.
  intros Hr. apply build_rows_inv in Hr as (rv & firsts & Hp & Hf & Hr).
  apply mapM_Some_1 in Hp, Hf, Hr.
  assert (forall nxt, nxt ∈ firsts ->
            exists line' b' c', line' ∈ lines /\ parse_colons line' = Some [nxt; b'; c'])
    as Hfirsts.
  { intros nxt Hin. apply list_elem_of_lookup_1 in Hin as [i Hi].
    destruct (Forall2_lookup_r _ _ _ i nxt Hf Hi) as (row & Hrow & Hrow0).
    destruct (Forall2_lookup_r _ _ _ i row Hp Hrow) as (line' & Hline & Hparse).
    pose proof Hparse as Hsh.
    apply parse_colons_shape in Hsh as (a & b & c & -> & _).
    simpl in Hrow0. injection Hrow0 as ->.
    exists line', b, c. split; [|exact Hparse].
    eapply list_elem_of_lookup_2; eauto. }
  apply Forall2_same_length_lookup. split.
  { rewrite (Forall2_length _ _ _ Hp). apply (Forall2_length _ _ _ Hr). }
  intros i line row Hline Hrowi.
  destruct (Forall2_lookup_l _ _ _ i line Hp Hline) as (parts & Hparts & Hparse).
  destruct (Forall2_lookup_l _ _ _ i parts Hr Hparts) as (row' & Hrow' & Happ).
  assert (row' = row) as -> by congruence.
  pose proof Hparse as Hsh.
  apply parse_colons_shape in Hsh as (a & b & c & -> & _).
  unfold append_last_byte in Happ. simpl in Happ.
  destruct (byte_dict (byte_values firsts) !! a) as [last|] eqn:Hlast;
    [|discriminate].
  simpl in Happ. injection Happ as <-.
  exists a, b, c, last. split; [exact Hparse|]. split; [reflexivity|].
  destruct (Forall2_lookup_l _ _ _ i [a; b; c] Hf Hparts) as (a' & Ha' & Hrow0).
  simpl in Hrow0. injection Hrow0 as <-.
  destruct (byte_dict_has_first firsts a) as (last' & Hlast' & Hcases).
  { eapply list_elem_of_lookup_2; eauto. }
  assert (last' = last) as -> by congruence.
  destruct Hcases as [->|(nxt & -> & Hne & Hle & Hin)]; [now left|].
  right. exists nxt. repeat split; auto.
Qed.

Lemma build_rows_shape_witness :
  Forall2 (fun line row =>
    exists a b c last,
      parse_colons line = Some [a; b; c] /\
      row = [PyStr a; PyStr b; PyStr c; last] /\
      (last = PyInt (-1) \/
       exists nxt, last = PyStr nxt /\ nxt <> a /\ String.le a nxt /\
         exists line' b' c', line' ∈ ["616:10:A"; "700:2:D"] /\
           parse_colons line' = Some [nxt; b'; c']))
    ["616:10:A"; "700:2:D"]
    [[PyStr "616"; PyStr "10"; PyStr "A"; PyStr "700"];
     [PyStr "700"; PyStr "2"; PyStr "D"; PyInt (-1)]].
Proof.
  apply (build_rows_shape ["616:10:A"; "700:2:D"]).
  vm_compute. reflexivity.
Defined.

End BuildRowsFacts.

(** ** The scanner on blocks with fragments and repeated identifiers *)

Section ScannerEdges.
Import PyStr Reader Block.

Lemma scan_first_match (p : MWParser) (lead : list event)
    (before : list document) (d : document) (tail : list event) :
  searching p ->
  Forall (fun e => is_page_tag e = false) lead ->
  Forall well_formed before -> well_formed d ->
  Forall (fun d' => doc_id d' <> true_id p) before ->
  doc_id d = true_id p ->
  final_lines (feed_events p (lead ++ block before ++ doc_events d ++ tail)) =
    map render_event (doc_events d).
Proof.
  intros Hs Hlead Hwf Hd Hne Hid.
  rewrite !feed_events_app.
  destruct (feed_events_inside lead p Hs Hlead) as (Hs1 & _ & _).
  pose proof (feed_events_true_id lead p) as Ht1.
  set (p1 := feed_events p lead) in *. clearbody p1.
  assert (searching (feed_events p1 (block before))) as Hs2.
  { apply scan_block_no_match; auto.
    eapply Forall_impl; [exact Hne|]. intros x Hx. cbv beta. congruence. }
  pose proof (feed_events_true_id (block before) p1) as Ht2.
  set (p2 := feed_events p1 (block before)) in *. clearbody p2.
  assert (final_lines (feed_events p2 (doc_events d)) = map render_event (doc_events d))
    as Hfin.
  { rewrite scan_document by assumption.
    destruct (decide (doc_id d = true_id p2)); [reflexivity | congruence]. }
  rewrite feed_events_done; [exact Hfin|].
  rewrite Hfin. unfold doc_events. simpl. discriminate.
Qed.

(** The first document that carries the target identifier is the result,
    whatever follows it: further documents, also with the same identifier,
    or a cut-off fragment; and a leading fragment without page tags changes
    nothing. *)
Theorem scanner_first_match_wins (id : string) (lead : list event)
    (before : list document) (d : document) (tail : list event) :
  Forall (fun e => is_page_tag e = false) lead ->
  Forall well_formed before -> well_formed d ->
  Forall (fun d' => doc_id d' <> id) before ->
  doc_id d = id ->
  join (final_lines (feed_events (MWParser_init id)
                       (lead ++ block before ++ doc_events d ++ tail))) =
    document_text d.
Proof.
  intros Hlead Hwf Hd Hne Hid. unfold document_text. f_equal.
  apply scan_first_match; auto. reflexivity.
Qed.

(** A page element without any [id] element is snapshotted exactly when the
    target identifier is the text [None]: [str(None)] is compared with it. *)
Theorem scanner_page_without_id (p : MWParser)
    (attrs : list (string * option string)) (body : list event) :
  searching p ->
  Forall (fun e => is_page_tag e = false) body ->
  Forall (fun e => is_id_start e = false) body ->
  final_lines (feed_events p (StartTag "page" attrs :: body ++ [EndTag "page"])) =
    if decide (true_id p = "None")
    then map render_event (StartTag "page" attrs :: body ++ [EndTag "page"])
    else [].
Proof.
  intros Hs Hpg Hid. rewrite feed_events_cons.
  set (p1 := dispatch p (StartTag "page" attrs)).
  assert (searching p1 /\ lines p1 = [render_starttag "page" attrs] /\
          observed_id p1 = None /\ curr_tag_id p1 = false /\ true_id p1 = true_id p)
    as (Hs1 & Hl1 & Ho1 & Hc1 & Ht1).
  { unfold p1, searching in *. simpl. unfold handle_starttag. rewrite Hs. simpl. auto. }
  clearbody p1. rewrite feed_events_app.
  destruct (feed_events_inside body p1 Hs1 Hpg) as (Hs2 & Hl2 & _).
  destruct (feed_events_before_id body p1 Hs1 Hpg Hid Hc1) as (_ & Ho2).
  pose proof (feed_events_true_id body p1) as Ht2.
  set (p2 := feed_events p1 body) in *. clearbody p2.
  rewrite Ho1 in Ho2. rewrite Hl1 in Hl2. rewrite Ht1 in Ht2.
  unfold searching in Hs2. destruct p2 as [t o l c f]. simpl in *. subst.
  unfold handle_endtag. simpl.
  destruct (decide (true_id p = "None")) as [E|E].
  - rewrite bool_decide_eq_true_2 by congruence. simpl.
    rewrite map_app. reflexivity.
  - rewrite bool_decide_eq_false_2 by congruence. reflexivity.
Qed.

(** The end tag of an [id] element closes the identifier field: text that
    follows it outside any further [id] element is never taken for the
    identifier, also when the element was empty and nothing is recorded
    yet. *)
Theorem text_after_id_end_not_recorded (p : MWParser) (evs : list event)
    (text : string) :
  searching p ->
  Forall (fun e => is_page_tag e = false) evs ->
  Forall (fun e => is_id_start e = false) evs ->
  observed_id (feed_events p (EndTag "id" :: evs ++ [Data text])) = observed_id p.
Proof.
  intros Hs Hpg Hid. rewrite feed_events_cons, feed_events_app.
  set (p1 := dispatch p (EndTag "id")).
  assert (searching p1 /\ curr_tag_id p1 = false /\ observed_id p1 = observed_id p)
    as (Hs1 & Hc1 & Ho1).
  { unfold p1, searching in *. simpl. unfold handle_endtag. rewrite Hs. simpl. auto. }
  clearbody p1.
  destruct (feed_events_before_id evs p1 Hs1 Hpg Hid Hc1) as (Hc2 & Ho2).
  destruct (feed_events_inside evs p1 Hs1 Hpg) as (Hs2 & _ & _).
  set (p2 := feed_events p1 evs) in *. clearbody p2.
  unfold searching in Hs2. simpl. unfold handle_data. rewrite Hs2. simpl.
  rewrite Hc2. simpl. congruence.
Qed.

End ScannerEdges.

Section ScannerEdgesWitnesses.
Import PyStr Reader Block Examples.

Lemma scanner_first_match_wins_witness :
  join (final_lines (feed_events (MWParser_init "25")
          ([Data "tail of the block before"; EndTag "mediawiki"]
           ++ block [doc_a] ++ doc_events doc_b
           ++ (doc_events doc_b ++ [StartTag "page" []; StartTag "id" []]))))
    = document_text doc_b.
Proof.
  apply (scanner_first_match_wins "25"
           [Data "tail of the block before"; EndTag "mediawiki"]
           [doc_a] doc_b (doc_events doc_b ++ [StartTag "page" []; StartTag "id" []])).
  - repeat constructor.
  - repeat constructor; simpl; repeat constructor.
  - repeat constructor; simpl; repeat constructor.
  - repeat constructor. discriminate.
  - reflexivity.
Defined.

Lemma scanner_page_without_id_witness :
  final_lines (feed_events (MWParser_init "None")
                 (StartTag "page" [] :: [Data "text"] ++ [EndTag "page"])) =
    ["<page>"; "text"; "</page>"].
Proof.
  apply (scanner_page_without_id (MWParser_init "None") [] [Data "text"]).
  - reflexivity.
  - repeat constructor.
  - repeat constructor.
Defined.

Lemma text_after_id_end_not_recorded_witness :
  observed_id (feed_events (mkMWParser "12" None ["<page>"; "<id>"] true [])
                 (EndTag "id" :: [StartTag "title" []] ++ [Data "Zebra"])) = None.
Proof.
  apply (text_after_id_end_not_recorded
           (mkMWParser "12" None ["<page>"; "<id>"] true [])
           [StartTag "title" []] "Zebra").
  - reflexivity.
  - repeat constructor.
  - repeat constructor.
Defined.

End ScannerEdgesWitnesses.

(** ** Byte ranges outside the intended ones *)

Section ByteRangeEdges.
Import Reader.

(** An end offset below a non-negative start offset makes the size of the
    second [read] negative.  One below the start offset the size is [-1] and
    everything from the start offset to the end of the archive is read;
    further below, the [read] raises [ValueError]. *)
Theorem bytes_of_interest_end_before_start
    (archive : list byte) (start_index end_index : Z) :
  (0 <= start_index)%Z -> (end_index < start_index)%Z ->
  bytes_of_interest archive start_index end_index =
    if decide (end_index = (start_index - 1)%Z)
    then Ok (drop (Z.to_nat start_index) archive)
    else Err ValueError.
Proof.
  intros Hs He. rewrite bytes_of_interest_from by exact Hs.
  destruct (decide (end_index = (start_index - 1)%Z)) as [->|Hne].
  - replace (start_index - 1 - start_index)%Z with (-1)%Z by lia.
    rewrite file_read_minus_one. cbn [contents position].
    rewrite drop_length_take. reflexivity.
  - rewrite file_read_below by lia. reflexivity.
Qed.

Lemma bytes_of_interest_end_before_start_witness :
  bytes_of_interest Examples.ten_bytes 7 3 = Err ValueError /\
  bytes_of_interest Examples.ten_bytes 7 6 = Ok (list_byte_of_string "hij").
Proof.
  split.
  - apply (bytes_of_interest_end_before_start Examples.ten_bytes 7 3); lia.
  - apply (bytes_of_interest_end_before_start Examples.ten_bytes 7 6); lia.
Defined.

(** A negative start offset is the size of the first [read].  Below [-1] it
    raises [ValueError].  At [-1] the first [read] takes the whole archive,
    so that the second one finds nothing left: it returns no byte, or raises
    [ValueError] when its own size, [end_index + 1], is below [-1]. *)
Theorem bytes_of_interest_negative_start
    (archive : list byte) (start_index end_index : Z) :
  (start_index < 0)%Z ->
  bytes_of_interest archive start_index end_index =
    if decide (start_index = (-1)%Z /\ (-2 <= end_index)%Z)
    then Ok []
    else Err ValueError.
Proof.
  intros Hs. unfold bytes_of_interest, open_rb.
  destruct (decide (start_index = (-1)%Z /\ (-2 <= end_index)%Z)) as [[-> He]|Hn].
  - rewrite file_read_minus_one. cbn [contents position]. rewrite drop_0.
    unfold file_read. cbn [contents position].
    destruct (Z.ltb_spec (end_index - -1) (-1)) as [?|_]; [lia|].
    rewrite Nat.add_0_l, drop_all.
    destruct (end_index - -1 =? -1)%Z; [reflexivity|]. now rewrite take_nil.
  - destruct (decide (start_index = (-1)%Z)) as [->|Hne].
    + rewrite file_read_minus_one. rewrite file_read_below by lia. reflexivity.
    + rewrite file_read_below by lia. reflexivity.
Qed.

Lemma bytes_of_interest_negative_start_witness :
  bytes_of_interest Examples.ten_bytes (-1) 6 = Ok [] /\
  bytes_of_interest Examples.ten_bytes (-2) 6 = Err ValueError.
Proof.
  split.
  - apply (bytes_of_interest_negative_start Examples.ten_bytes (-1) 6). lia.
  - apply (bytes_of_interest_negative_start Examples.ten_bytes (-2) 6). lia.
Defined.

(** For [0 <= start_index <= end_index] both reads return, and the bytes
    read are the archive bytes at positions [start_index .. end_index - 1]
    that exist: at most [end_index - start_index] of them, fewer when the
    archive ends before [end_index], none when it ends before
    [start_index]. *)
Theorem bytes_of_interest_within_archive
    (archive : list byte) (start_index end_index : Z) :
  (0 <= start_index <= end_index)%Z ->
  bytes_of_interest archive start_index end_index =
    Ok (take (Z.to_nat (end_index - start_index))
             (drop (Z.to_nat start_index) archive)) /\
  (forall bytes, bytes_of_interest archive start_index end_index = Ok bytes ->
     length bytes =
       Nat.min (Z.to_nat (end_index - start_index))
               (length archive - Z.to_nat start_index)).
Proof.
  intros Hse.
  assert (bytes_of_interest archive start_index end_index =
          Ok (take (Z.to_nat (end_index - start_index))
                   (drop (Z.to_nat start_index) archive))) as Hb.
  { rewrite bytes_of_interest_from by lia.
    rewrite file_read_size by lia. cbn [contents position].
    rewrite drop_length_take. reflexivity. }
  split; [exact Hb|]. intros bytes Hbytes. rewrite Hb in Hbytes.
  injection Hbytes as <-. rewrite length_take, length_drop. reflexivity.
Qed.

Lemma bytes_of_interest_within_archive_witness :
  bytes_of_interest Examples.ten_bytes 8 20 = Ok (list_byte_of_string "ij").
Proof.
  refine (proj1 (bytes_of_interest_within_archive Examples.ten_bytes 8 20 _)). lia.
Defined.

End ByteRangeEdges.

(** ** Retrieval as a whole *)

Section RetrievalFacts.
Import PyStr Reader Block.
Context `{Library}.

Lemma select_by_title_head (s : searcher) (title : string) (r : row) (rest : list row) :
  select_by_title s title = r :: rest -> row_title r = title /\ r ∈ index s.
Proof.
  intros Hsel. assert (r ∈ select_by_title s title) as Hin by (rewrite Hsel; left).
  unfold select_by_title in Hin. apply list_elem_of_filter in Hin. exact Hin.
Qed.

(** The page and the error of a retrieval are computed from the archive, the
    index and the title alone. *)
Lemma retrieve_result_of_rows (s1 s2 : searcher) (title : string) :
  multistream s1 = multistream s2 ->
  head (select_by_title s1 title) = head (select_by_title s2 title) ->
  (retrieve_article_xml s1 title).2 = (retrieve_article_xml s2 title).2.
Proof.
  intros Hm Hh. unfold retrieve_article_xml. rewrite Hm.
  destruct (select_by_title s1 title) as [|r1 rest1],
           (select_by_title s2 title) as [|r2 rest2]; simpl in Hh; try discriminate;
    [reflexivity|].
  injection Hh as ->.
  destruct (extract_indexed_range _ _ _); reflexivity.
Qed.

Lemma retrieve_keeps_archive_and_index (s : searcher) (title : string) :
  multistream (retrieve_article_xml s title).1 = multistream s /\
  index (retrieve_article_xml s title).1 = index s.
Proof.
  unfold retrieve_article_xml.
  destruct (select_by_title s title) as [|r rest]; [auto|].
  destruct (extract_indexed_range _ _ _); auto.
Qed.

(** A retrieval never changes the archive or the index; when it succeeds it
    records the page under the title and touches no other entry of
    [retrieved_pages]; when it fails it leaves [retrieved_pages] as it was. *)
Theorem retrieve_records_page_on_success (s : searcher) (title : string) :
  multistream (retrieve_article_xml s title).1 = multistream s /\
  index (retrieve_article_xml s title).1 = index s /\
  match (retrieve_article_xml s title).2 with
  | Ok page =>
      retrieved_pages (retrieve_article_xml s title).1 =
        <[title := page]> (retrieved_pages s)
  | Err _ => retrieved_pages (retrieve_article_xml s title).1 = retrieved_pages s
  end.
Proof.
  destruct (retrieve_keeps_archive_and_index s title) as [Hm Hi].
  split; [exact Hm|]. split; [exact Hi|].
  unfold retrieve_article_xml.
  destruct (select_by_title s title) as [|r rest] eqn:Hsel; [reflexivity|].
  apply select_by_title_head in Hsel as [Ht _].
  destruct (extract_indexed_range _ _ _); simpl; [|reflexivity].
  now rewrite Ht.
Qed.

(** The whole pipeline: when the first row for the title names the
    identifier of a document of the decompressed block, and no document
    before it carries that identifier, the retrieval returns the rebuilt
    text of that document. *)
Theorem retrieve_returns_matching_document
    (s : searcher) (title : string) (r : row) (rest : list row) (xml_block : string)
    (lead : list event) (before : list document) (d : document) (tail : list event) :
  select_by_title s title = r :: rest ->
  extract_indexed_range (multistream s) (start_index r) (end_index r) = Ok xml_block ->
  goahead xml_block = lead ++ block before ++ doc_events d ++ tail ->
  Forall (fun e => is_page_tag e = false) lead ->
  Forall well_formed before -> well_formed d ->
  Forall (fun d' => doc_id d' <> page_id r) before ->
  doc_id d = page_id r ->
  (retrieve_article_xml s title).2 = Ok (document_text d).
Proof.
  intros Hsel Hex Hev Hlead Hwf Hd Hne Hid.
  unfold retrieve_article_xml. rewrite Hsel, Hex. simpl.
  unfold feed. rewrite Hev. unfold document_text. do 2 f_equal.
  apply scan_first_match; auto. reflexivity.
Qed.

(** What was retrieved before has no influence on a retrieval: after any
    retrieval, retrieving a title gives the page or error it would have given
    before; in particular a repeated retrieval gives the same page. *)
Theorem retrieve_independent_of_retrieved_pages (s : searcher) (title1 title2 : string) :
  (retrieve_article_xml (retrieve_article_xml s title1).1 title2).2 =
  (retrieve_article_xml s title2).2.
Proof.
  destruct (retrieve_keeps_archive_and_index s title1) as [Hm Hi].
  apply retrieve_result_of_rows; [exact Hm|].
  unfold select_by_title. now rewrite Hi.
Qed.

(** Among several rows for a title the first one in table order decides:
    the rows after it can be dropped or replaced without changing the
    result. *)
Theorem retrieve_uses_first_row (s : searcher) (title : string) (r : row)
    (rest : list row) (pages : gmap string string) :
  select_by_title s title = r :: rest ->
  (retrieve_article_xml s title).2 =
  (retrieve_article_xml (mkSearcher (multistream s) [r] pages) title).2.
Proof.
  intros Hsel. apply retrieve_result_of_rows; [reflexivity|].
  rewrite Hsel. apply select_by_title_head in Hsel as [Ht _].
  unfold select_by_title. simpl. rewrite filter_cons_True by exact Ht.
  reflexivity.
Qed.

End RetrievalFacts.

Section RetrievalFactsWitnesses.
Import PyStr Reader Block Examples MoreExamples.

Lemma retrieve_returns_matching_document_witness :
  (@retrieve_article_xml (stored_library (block three_docs)) autism_searcher "Autism").2
    = Ok (document_text doc_b).
Proof.
  apply (@retrieve_returns_matching_document (stored_library (block three_docs))
           autism_searcher "Autism" (mkRow 2 "25" "Autism" 6)
           [mkRow 1 "12" "Autism" 3] "cdef" [] [doc_a] doc_b (doc_events doc_c)).
  - reflexivity.
  - reflexivity.
  - vm_compute. reflexivity.
  - constructor.
  - repeat constructor; simpl; repeat constructor.
  - repeat constructor; simpl; repeat constructor.
  - repeat constructor. discriminate.
  - reflexivity.
Defined.

Lemma retrieve_uses_first_row_witness :
  (@retrieve_article_xml (stored_library (block three_docs)) autism_searcher "Autism").2 =
  (@retrieve_article_xml (stored_library (block three_docs))
     (mkSearcher ten_bytes [mkRow 2 "25" "Autism" 6] ∅) "Autism").2.
Proof.
  apply (@retrieve_uses_first_row (stored_library (block three_docs))
           autism_searcher "Autism" (mkRow 2 "25" "Autism" 6)
           [mkRow 1 "12" "Autism" 3] ∅).
  reflexivity.
Defined.

End RetrievalFactsWitnesses.

(** ** The graph store and the link loop *)

Section GraphFacts.
Import Crawl.
Context `{Collaborators}.

#[local] Arguments fresh_classification : simpl never.

Ltac unfold_M :=
  unfold bind, ret, ask, get, modify, raise in *; simpl in *.

Lemma find_snoc {A} (f : A -> bool) (l : list A) (x : A) :
  find f l = None -> find f (l ++ [x]) = if f x then Some x else None.
Proof.
  induction l as [|y l IH]; simpl; [reflexivity|].
  destruct (f y); [discriminate | exact IH].
Qed.

Lemma get_or_none_None (ns : list node) (props : Properties) :
  get_or_none ns props = None -> props ∉ node_properties <$> ns.
Proof.
  unfold get_or_none. intros Hf Hin.
  apply list_elem_of_fmap in Hin as (n & -> & Hn).
  apply list_elem_of_In in Hn.
  pose proof (find_none _ _ Hf n Hn) as Hb. simpl in Hb.
  apply bool_decide_eq_false in Hb. congruence.
Qed.

Lemma get_or_none_Some (ns : list node) (props : Properties) (n : node) :
  get_or_none ns props = Some n -> n ∈ ns /\ node_properties n = props.
Proof.
  unfold get_or_none. intros Hf. apply find_some in Hf as [Hin Hb].
  split; [now apply list_elem_of_In|]. now apply bool_decide_eq_true in Hb.
Qed.

(** What a returning [add_node] does. *)
Lemma add_node_returned (article : value Article Seed) (s s1 : state) (n : node) :
  add_node article s = (s1, Returned n) ->
  properties (world s) article = Returned (node_properties n) /\
  ((get_or_none (nodes s) (node_properties n) = Some n /\ s1 = s) \/
   (get_or_none (nodes s) (node_properties n) = None /\
    n = mkNode (length (nodes s)) (node_properties n) /\
    s1 = set_graph s (nodes s ++ [n]) (edges s) (Some article))).
Proof.
  unfold add_node. unfold_M.
  destruct (properties (world s) article) as [props|]; simpl; [|discriminate].
  destruct (get_or_none (nodes s) props) as [m|] eqn:Hg; simpl.
  - intros [= <- <-]. destruct (get_or_none_Some _ _ _ Hg) as [_ Hp].
    rewrite Hp. auto.
  - intros [= <- <-]. simpl. split; [reflexivity|]. right. auto.
Qed.

(** [add_node] gets or makes: called again for the same article it returns
    the same node and changes nothing. *)
Theorem add_node_twice (article : value Article Seed) (s s1 : state) (n : node) :
  add_node article s = (s1, Returned n) ->
  add_node article s1 = (s1, Returned n).
Proof.
  intros Ha. destruct (add_node_returned _ _ _ _ Ha) as [Hp [[Hg ->]|(Hg & Hn & ->)]].
  - exact Ha.
  - unfold add_node. unfold_M. rewrite Hp. simpl.
    unfold get_or_none in *. rewrite (find_snoc _ _ _ Hg). simpl.
    rewrite bool_decide_eq_true_2 by reflexivity. reflexivity.
Qed.

(** A returning [add_node] yields a node of the store that carries the
    properties of the article; it adds at most that node, at the end, and
    touches neither edges, queue, counter nor the collaborators' world. *)
Theorem add_node_registers (article : value Article Seed) (s s1 : state) (n : node) :
  add_node article s = (s1, Returned n) ->
  n ∈ nodes s1 /\
  properties (world s) article = Returned (node_properties n) /\
  (nodes s1 = nodes s \/ nodes s1 = nodes s ++ [n]) /\
  edges s1 = edges s /\ search_queue s1 = search_queue s /\
  counter s1 = counter s /\ world s1 = world s.
Proof.
  intros Ha. destruct (add_node_returned _ _ _ _ Ha) as [Hp [[Hg ->]|(Hg & Hn & ->)]].
  - destruct (get_or_none_Some _ _ _ Hg) as [Hin _]. repeat split; auto.
  - simpl. repeat split; auto. apply elem_of_app. right. left.
Qed.

(** The store never holds two nodes with the same properties: [add_node]
    keeps that. *)
Lemma add_node_keeps_distinct (article : value Article Seed) (s : state) :
  NoDup (node_properties <$> nodes s) ->
  NoDup (node_properties <$> nodes (add_node article s).1).
Proof.
  intros Hnd. destruct (add_node article s) as [s1 [n|]] eqn:Ha.
  - destruct (add_node_returned _ _ _ _ Ha) as [Hp [[Hg ->]|(Hg & Hn & ->)]];
      [exact Hnd|].
    simpl. rewrite fmap_app. simpl. apply NoDup_app. split; [exact Hnd|].
    split; [|apply NoDup_singleton].
    intros x Hx Hx'. apply list_elem_of_singleton in Hx'. subst x.
    now apply (get_or_none_None _ _ Hg).
  - unfold add_node in Ha. unfold_M.
    destruct (properties (world s) article) as [props|]; simpl in Ha.
    + destruct (get_or_none (nodes s) props); discriminate.
    + injection Ha as <-. exact Hnd.
Qed.

Lemma add_edge_nodes a b s : nodes (add_edge a b s).1 = nodes s.
Proof. unfold add_edge. unfold_M. destruct (decide _); reflexivity. Qed.

(** A link with a cached negative verdict changes nothing at all. *)
Theorem cached_negative_link_is_skipped
    (current : node) (linked_article : Article) (s : state) :
  retrieve_classification (world s) linked_article = Returned (Some false) ->
  process_link current linked_article s = (s, Returned tt).
Proof.
  intros Hst. unfold process_link. unfold_M. rewrite Hst. reflexivity.
Qed.

(** A link without cached verdict whose fresh classification is positive:
    its node is got or made from its properties, the edge from the dequeued
    node to that node is in the store, that node is appended to the queue and
    kept in [child_node], and the counter goes up by one. *)
Theorem fresh_positive_link_is_registered
    (current : node) (linked_article : Article) (s : state)
    (w' : World) (props : Properties) :
  retrieve_classification (world s) linked_article = Returned None ->
  fresh_classification (world s) linked_article = (w', Some true) ->
  properties w' (VArticle linked_article) = Returned props ->
  exists n s',
    process_link current linked_article s = (s', Returned tt) /\
    node_properties n = props /\ n ∈ nodes s' /\
    (current, n) ∈ edges s' /\
    search_queue s' = search_queue s ++ [n] /\
    child_node s' = Some n /\
    counter s' = (counter s + 1)%Z /\ world s' = w'.
Proof.
  intros Hst Hf Hp. unfold process_link, add_node, add_edge. unfold_M.
  rewrite Hst. simpl. rewrite Hf. simpl. rewrite Hp. simpl.
  destruct (get_or_none (nodes s) props) as [n|] eqn:Hg; simpl.
  - destruct (get_or_none_Some _ _ _ Hg) as [Hin Hn].
    exists n. eexists. split; [reflexivity|].
    destruct (decide ((current, n) ∈ edges s)); simpl; repeat split; auto.
    apply elem_of_app. right. left.
  - exists (mkNode (length (nodes s)) props). eexists. split; [reflexivity|].
    destruct (decide _); simpl; repeat split; auto;
      apply elem_of_app; right; left.
Qed.

Lemma process_link_appends (current : node) (linked_article : Article) (s : state) :
  exists ns es q,
    nodes (process_link current linked_article s).1 = nodes s ++ ns /\
    edges (process_link current linked_article s).1 = edges s ++ es /\
    search_queue (process_link current linked_article s).1 = search_queue s ++ q /\
    length ns <= 1 /\ length es <= 1 /\ length q <= 1.
Proof.
  assert (exists ns es q : _, nodes s = nodes s ++ ns /\ edges s = edges s ++ es /\
            search_queue s = search_queue s ++ q /\
            length ns <= 1 /\ length es <= 1 /\ length q <= 1) as Hsame.
  { exists [], [], []. rewrite !app_nil_r. simpl. repeat split; auto. }
  unfold process_link, add_node, add_edge. unfold_M.
  destruct (retrieve_classification (world s) linked_article) as [[v|]|] eqn:Est;
    simpl; [| |exact Hsame].
  - destruct v; simpl; [|exact Hsame].
    destruct (child_node s) as [child|]; simpl; [|exact Hsame].
    destruct (decide _); simpl.
    + exists [], [], [child]. rewrite !app_nil_r. simpl. repeat split; auto.
    + exists [], [(current, child)], [child]. rewrite !app_nil_r. simpl.
      repeat split; auto.
  - destruct (fresh_classification (world s) linked_article) as [w' v] eqn:Ef.
    simpl. destruct (is_true v) eqn:Ev; simpl; [|exact Hsame].
    destruct (properties w' (VArticle linked_article)) as [props|]; simpl;
      [|exact Hsame].
    destruct (get_or_none (nodes s) props) as [n|]; simpl;
      destruct (decide _); simpl.
    + exists [], [], [n]. rewrite !app_nil_r. simpl. repeat split; auto.
    + exists [], [(current, n)], [n]. rewrite !app_nil_r. simpl. repeat split; auto.
    + eexists [_], [], [_]. rewrite !app_nil_r. simpl. repeat split; auto.
    + eexists [_], [_], [_]. simpl. repeat split; auto.
Qed.

(** Over the links of a node the store and the queue only grow at their
    ends: at most one node, one edge and one queue entry per link, and what
    was there before stays, in its order. *)
Theorem link_loop_only_appends (current : node) (links : list Article) (s : state) :
  exists ns es q,
    nodes (process_links current links s).1 = nodes s ++ ns /\
    edges (process_links current links s).1 = edges s ++ es /\
    search_queue (process_links current links s).1 = search_queue s ++ q /\
    length ns <= length links /\ length es <= length links /\
    length q <= length links.
Proof.
  revert s. induction links as [|l links IH]; intros s.
  - exists [], [], []. simpl. rewrite !app_nil_r. repeat split; auto.
  - simpl. unfold bind.
    destruct (process_link_appends current l s)
      as (ns1 & es1 & q1 & Hn1 & He1 & Hq1 & Ln1 & Le1 & Lq1).
    destruct (process_link current l s) as [s1 [[]|]]; simpl in *.
    + destruct (IH s1) as (ns2 & es2 & q2 & Hn2 & He2 & Hq2 & Ln2 & Le2 & Lq2).
      exists (ns1 ++ ns2), (es1 ++ es2), (q1 ++ q2).
      rewrite Hn2, He2, Hq2, Hn1, He1, Hq1, !app_assoc, !length_app.
      repeat split; auto; lia.
    + exists ns1, es1, q1. repeat split; auto; lia.
Qed.

End GraphFacts.

(** ** Invariants of the store and the script as a whole *)

Section ScriptFacts.
Import Crawl CrawlInvariants.
Context `{Collaborators}.

#[local] Arguments fresh_classification : simpl never.

Ltac unfold_M :=
  unfold bind, ret, ask, get, modify, raise in *; simpl in *.

Lemma distinct_properties_snoc (s : state) (props : Properties) :
  distinct_properties s -> get_or_none (nodes s) props = None ->
  NoDup (node_properties <$> (nodes s ++ [mkNode (length (nodes s)) props])).
Proof.
  intros Hnd Hg. rewrite fmap_app. simpl. apply NoDup_app. split; [exact Hnd|].
  split; [|apply NoDup_singleton].
  intros x Hx Hx'. apply list_elem_of_singleton in Hx'. subst x.
  now apply (get_or_none_None _ _ Hg).
Qed.

Lemma process_link_keeps_distinct (current : node) (linked_article : Article) (s : state) :
  distinct_properties s ->
  distinct_properties (process_link current linked_article s).1.
Proof.
  intros Hnd. unfold distinct_properties in *.
  unfold process_link, add_node, add_edge. unfold_M.
  destruct (retrieve_classification (world s) linked_article) as [[v|]|] eqn:Est;
    simpl; [| |exact Hnd].
  - destruct v; simpl; [|exact Hnd].
    destruct (child_node s) as [child|]; simpl; [|exact Hnd].
    destruct (decide _); simpl; exact Hnd.
  - destruct (fresh_classification (world s) linked_article) as [w' v] eqn:Ef.
    simpl. destruct (is_true v) eqn:Ev; simpl; [|exact Hnd].
    destruct (properties w' (VArticle linked_article)) as [props|]; simpl;
      [|exact Hnd].
    destruct (get_or_none (nodes s) props) as [n|] eqn:Hg; simpl;
      destruct (decide _); simpl; try exact Hnd;
      now apply distinct_properties_snoc.
Qed.

Lemma process_links_keeps_distinct (current : node) (links : list Article) :
  forall s, distinct_properties s ->
            distinct_properties (process_links current links s).1.
Proof.
  induction links as [|l links IH]; intros s Hnd; [exact Hnd|].
  simpl. unfold bind.
  pose proof (process_link_keeps_distinct current l s Hnd) as H1.
  destruct (process_link current l s) as [s1 [[]|]]; simpl in *; [|exact H1].
  now apply IH.
Qed.

Lemma crawl_loop_keeps_distinct (rounds : nat) :
  forall continue_search s,
    distinct_properties s ->
    distinct_properties (crawl_loop rounds continue_search s).1.
Proof.
  induction rounds as [|rounds IH]; intros cs s Hnd; simpl; unfold_M.
  - destruct (search_queue s); simpl; [exact Hnd|]. destruct cs; exact Hnd.
  - destruct (search_queue s) as [|current queue']; simpl; [exact Hnd|].
    destruct cs; simpl; [|exact Hnd].
    unfold node_links. unfold_M.
    destruct (cls_article s) as [[a|items]|]; simpl; try exact Hnd.
    destruct (outgoing_links (world s) a) as [links|]; simpl.
    + set (s1 := set_search_queue s queue').
      assert (distinct_properties s1) as Hnd1 by exact Hnd.
      pose proof (process_links_keeps_distinct current links s1 Hnd1) as H1.
      destruct (process_links current links s1) as [s2 [[]|]]; simpl in *;
        [|exact H1].
      now apply IH.
    + apply IH. exact Hnd.
Qed.

(** What seeding leaves behind when it returns. *)
Lemma seeding_returned (SEED_LIST : list Seed) (s s' : state) :
  seeding SEED_LIST s = (s', Returned tt) ->
  exists n,
    properties (world s') (VSeeds (take 2 SEED_LIST)) = Returned (node_properties n) /\
    nodes s' = [n] /\ edges s' = [] /\ search_queue s' = [n] /\
    counter s' = 1%Z /\
    cls_article s' = Some (VSeeds (take 2 SEED_LIST)).
Proof.
  unfold seeding, seed_items, seed_loop, seed_one, clear, add_node. unfold_M.
  destruct (retrieve_article_xml (world s) (VSeeds (take 2 SEED_LIST)))
    as [w' [[]|]]; simpl; [|discriminate].
  destruct (properties w' (VSeeds (take 2 SEED_LIST))) as [props|] eqn:Hp; simpl;
    [|discriminate].
  intros [= <-]. simpl. exists (mkNode 0 props). rewrite Hp. repeat split; auto.
Qed.

Lemma seeding_distinct (SEED_LIST : list Seed) (s : state) :
  distinct_properties (seeding SEED_LIST s).1.
Proof.
  unfold distinct_properties.
  unfold seeding, seed_items, seed_loop, seed_one, clear, add_node. unfold_M.
  destruct (retrieve_article_xml (world s) (VSeeds (take 2 SEED_LIST)))
    as [w' [[]|]]; simpl; [|constructor].
  destruct (properties w' (VSeeds (take 2 SEED_LIST))) as [props|]; simpl;
    [|constructor].
  apply NoDup_singleton.
Qed.

(** Whatever the store held before, and however a run of the script ends,
    the store then holds no two nodes with the same properties. *)
Theorem store_nodes_have_distinct_properties
    (SEED_LIST : list Seed) (rounds : nat) (s : state) :
  NoDup (node_properties <$> nodes (main SEED_LIST rounds s).1).
Proof.
  unfold main. unfold bind.
  pose proof (seeding_distinct SEED_LIST s) as Hs.
  destruct (seeding SEED_LIST s) as [s1 [[]|]]; simpl in *; [|exact Hs].
  now apply crawl_loop_keeps_distinct.
Qed.

(** The links read for a dequeued node are those of the article of the node
    made last, whichever node was dequeued: [add_node] stores the article in
    the class attribute when it makes a node and leaves it alone when it
    finds one. *)
Theorem node_links_reads_last_created
    (a : Article) (s s1 : state) (n : node) :
  add_node (VArticle a) s = (s1, Returned n) ->
  (n ∉ nodes s ->
     forall m, node_links m s1 = (s1, Returned (outgoing_links (world s1) a))) /\
  (n ∈ nodes s -> forall m, node_links m s1 = node_links m s).
Proof.
  intros Ha.
  destruct (add_node_returned _ _ _ _ Ha) as [Hp [[Hg ->]|(Hg & Hn & ->)]].
  - destruct (get_or_none_Some _ _ _ Hg) as [Hin _]. split; [contradiction|auto].
  - split; [intros _ m; reflexivity|]. intros Hin. exfalso.
    apply (get_or_none_None _ _ Hg). apply list_elem_of_fmap. eauto.
Qed.

(** The seed loop hands the list [SEED_LIST[0:2]] itself to [add_node],
    whose [vars(article)] raises a [TypeError] on a list.  So seeding raises,
    whether in the retrieval or in [add_node], and the script with it, before
    the [while] loop is reached; the store and the queue have been emptied
    and stay empty. *)
Theorem seeding_raises_on_seed_slice
    (SEED_LIST : list Seed) (rounds : nat) (s : state) :
  (forall w items, properties w (VSeeds items) = Raised) ->
  (seeding SEED_LIST s).2 = Raised /\
  main SEED_LIST rounds s = ((seeding SEED_LIST s).1, Raised) /\
  nodes (seeding SEED_LIST s).1 = [] /\
  edges (seeding SEED_LIST s).1 = [] /\
  search_queue (seeding SEED_LIST s).1 = [] /\
  counter (seeding SEED_LIST s).1 = counter s.
Proof.
  intros Hvars.
  assert ((seeding SEED_LIST s).2 = Raised /\
          nodes (seeding SEED_LIST s).1 = [] /\
          edges (seeding SEED_LIST s).1 = [] /\
          search_queue (seeding SEED_LIST s).1 = [] /\
          counter (seeding SEED_LIST s).1 = counter s) as (Hr & Hrest).
  { unfold seeding, seed_items, seed_loop, seed_one, clear, add_node. unfold_M.
    destruct (retrieve_article_xml (world s) (VSeeds (take 2 SEED_LIST)))
      as [w' [[]|]]; simpl; [|auto].
    rewrite Hvars. simpl. auto. }
  split; [exact Hr|]. split; [|exact Hrest].
  unfold main. unfold bind.
  destruct (seeding SEED_LIST s) as [s1 [[]|]]; simpl in *;
    [discriminate | reflexivity].
Qed.

(** As the seed loop hands the slice itself to [add_node], the class
    attribute read in the first round of the [while] loop is a list, which
    has no [outgoing_links]: a run of the script never ends normally. *)
Theorem main_never_finishes (SEED_LIST : list Seed) (rounds : nat) (s : state) :
  (main SEED_LIST rounds s).2 <> Returned Finished.
Proof.
  unfold main. unfold bind.
  destruct (seeding SEED_LIST s) as [s1 [[]|]] eqn:Hs; simpl; [|discriminate].
  destruct (seeding_returned _ _ _ Hs) as (n & _ & _ & _ & Hq & _ & Ha).
  destruct rounds as [|rounds]; simpl; unfold_M; rewrite Hq; simpl.
  - discriminate.
  - unfold node_links. unfold_M. rewrite Ha. simpl. discriminate.
Qed.

End ScriptFacts.

Section ScriptFactsWitnesses.
Import Crawl CrawlExamples MoreCrawlExamples.

Lemma add_node_twice_witness :
  add_node (VArticle "Adele") adele_added = (adele_added, Returned adele).
Proof.
  apply (@add_node_twice toy (VArticle "Adele") nina_dequeued adele_added adele).
  reflexivity.
Defined.

Lemma add_node_registers_witness :
  adele ∈ nodes adele_added /\
  properties (world nina_dequeued) (VArticle "Adele") = Returned (node_properties adele) /\
  (nodes adele_added = nodes nina_dequeued \/
   nodes adele_added = nodes nina_dequeued ++ [adele]) /\
  edges adele_added = edges nina_dequeued /\
  search_queue adele_added = search_queue nina_dequeued /\
  counter adele_added = counter nina_dequeued /\
  world adele_added = world nina_dequeued.
Proof.
  apply (@add_node_registers toy (VArticle "Adele") nina_dequeued adele_added adele).
  reflexivity.
Defined.

Lemma cached_negative_link_is_skipped_witness :
  process_link nina "Paris" paris_cached = (paris_cached, Returned tt).
Proof.
  apply (@cached_negative_link_is_skipped toy nina "Paris" paris_cached). reflexivity.
Defined.

Lemma fresh_positive_link_is_registered_witness :
  exists n s',
    process_link nina "Adele" nina_dequeued = (s', Returned tt) /\
    node_properties n = "Adele" /\ n ∈ nodes s' /\
    (nina, n) ∈ edges s' /\
    search_queue s' = search_queue nina_dequeued ++ [n] /\
    child_node s' = Some n /\
    counter s' = (counter nina_dequeued + 1)%Z /\
    world s' = (<["Adele" := true]> ({["Beck" := true]} : gmap string bool)).
Proof.
  apply (@fresh_positive_link_is_registered toy nina "Adele" nina_dequeued
           (<["Adele" := true]> ({["Beck" := true]} : gmap string bool)) "Adele").
  - reflexivity.
  - reflexivity.
  - reflexivity.
Defined.

Lemma node_links_reads_last_created_witness :
  node_links nina adele_added = (adele_added, Returned (Some [])).
Proof.
  refine (proj1 (@node_links_reads_last_created toy "Adele" nina_dequeued adele_added adele _)
            _ nina).
  - reflexivity.
  - intros Hin. apply list_elem_of_singleton in Hin. discriminate.
Defined.

Lemma seeding_raises_on_seed_slice_witness :
  (seeding ["Adele"; "Beck"; "Cher"] nina_dequeued).2 = Raised /\
  nodes (seeding ["Adele"; "Beck"; "Cher"] nina_dequeued).1 = [].
Proof.
  destruct (@seeding_raises_on_seed_slice toy ["Adele"; "Beck"; "Cher"] 3
              nina_dequeued (fun _ _ => eq_refl))
    as (Hr & _ & Hn & _).
  split; [exact Hr | exact Hn].
Defined.

End ScriptFactsWitnesses.

Section QuotaFacts.
Import Crawl.
Context `{Collaborators}.

Ltac unfold_M :=
  unfold bind, ret, ask, get, modify, raise in *; simpl in *.

Lemma crawl_loop_stopped (rounds : nat) (s : state) :
  crawl_loop rounds false s = (s, Returned Finished).
Proof.
  destruct rounds; simpl; unfold_M; destruct (search_queue s); reflexivity.
Qed.

(** The quota is looked at once per dequeued node, after all its links: when
    the counter has reached 150 by then, the loop ends normally and leaves
    the rest of the queue as it is, however many rounds are still allowed. *)
Theorem crawl_stops_at_quota
    (current : node) (queue' : list node) (links : list Article)
    (s s2 : state) (rounds : nat) :
  search_queue s = current :: queue' ->
  node_links current (set_search_queue s queue') =
    (set_search_queue s queue', Returned (Some links)) ->
  process_links current links (set_search_queue s queue') = (s2, Returned tt) ->
  (150 <= counter s2)%Z ->
  crawl_loop (S rounds) true s = (s2, Returned Finished).
Proof.
  intros Hq Hl Hp Hc. cbn [crawl_loop]. unfold bind at 1. unfold get at 1.
  rewrite Hq. cbn [negb]. unfold bind at 1. unfold modify at 1.
  unfold bind at 1. rewrite Hl.
  unfold bind at 1. rewrite Hp. unfold bind at 1. unfold get at 1.
  destruct (Z.ltb_spec (counter s2) 150) as [?|_]; [lia|].
  apply crawl_loop_stopped.
Qed.

End QuotaFacts.

Section QuotaFactsWitnesses.
Import Crawl CrawlExamples MoreCrawlExamples.

Lemma crawl_stops_at_quota_witness :
  crawl_loop 5 true near_quota = (quota_reached, Returned Finished).
Proof.
  apply (@crawl_stops_at_quota toy nina [nina] ["Adele"; "Beck"] near_quota).
  - reflexivity.
  - reflexivity.
  - vm_compute. reflexivity.
  - simpl. lia.
Defined.

End QuotaFactsWitnesses.
